(** * QuizTronic buzzer firmware: a shallow embedding and its properties

    The firmware (Buzzer/Firmware/src) is a handful of C modules that
    communicate through file-level [static volatile] variables.  Each
    module's variables become a record; each C function becomes a function on
    that record.  Calls that leave the firmware (GPIO writes, socket sends,
    RTOS delays, WIFI driver calls) are recorded as a list of [effect]s, in
    program order.  Values that come from outside (pin levels, return values
    of [send] and [recv], WIFI driver events) are arguments. *)

From Stdlib Require Import ZArith List Bool Lia.
Import ListNotations.
Local Open Scope Z_scope.

(** ** Calls that leave the firmware *)

Inductive effect : Type :=
| gpio_set_level (pin level : Z)      (* driver/gpio.h *)
| send (byte ret : Z)                 (* lwip send() of one byte, and what it returned *)
| close (fd : Z)                      (* shutdown() then close() *)
| esp_wifi_start
| esp_wifi_connect
| xEventGroupSetBits (bits : Z)
| vTaskDelay (ticks : Z)
| press_reported.                     (* state.c calls host_send_press() *)

(** gpio.h *)
Definition PIN_LED_PCB : Z := 2.
Definition PIN_LED_STATUS : Z := 3.
Definition PIN_LED_BUTTON : Z := 16.
Definition PIN_BUZZER : Z := 12.
Definition PIN_BUTTON : Z := 17.

(** Conversion of an [int] to [uint8_t]. *)
Definition uint8 (z : Z) : Z := z mod 256.

(** ** audio.c *)

Module Audio.

Record vars : Type := mk
  { _audio_start : bool;   (* Signal to start playback. *)
    _audio_stop : bool;    (* Signal to stop playback. *)
    _audio_count : Z }.    (* Count through playback. 0 => not playing back. *)

(** [_audio_count] is a C [int]; the only arithmetic on it is the decrement
    of a value that was just tested positive, which cannot overflow. *)
Definition audio_tick (s : vars) : vars * list effect :=
  (* if(_audio_start) *)
  let s1 :=
    if _audio_start s
    then mk false (_audio_stop s)
            (if _audio_count s =? 0 then 1000 else _audio_count s)
    else s in
  (* if(_audio_stop) *)
  let s2 :=
    if _audio_stop s1
    then mk (_audio_start s1) false 1
    else s1 in
  (* if(_audio_count > 0) *)
  if 0 <? _audio_count s2
  then
    let c := _audio_count s2 - 1 in
    (mk (_audio_start s2) (_audio_stop s2) c,
     [gpio_set_level PIN_BUZZER (Z.land c 1)])
  else (s2, []).

Definition audio_init : vars := mk false false 0.

Definition audio_start (s : vars) : vars :=
  mk true (_audio_stop s) (_audio_count s).

Definition audio_stop (s : vars) : vars :=
  mk (_audio_start s) true (_audio_count s).

(** The order the design text gives for the two tests of the tick: the stop
    signal first, the start signal second.  Compared with [audio_tick]
    below. *)
Definition audio_tick_stop_first (s : vars) : vars * list effect :=
  let s1 :=
    if _audio_stop s
    then mk (_audio_start s) false 1
    else s in
  let s2 :=
    if _audio_start s1
    then mk false (_audio_stop s1)
            (if _audio_count s1 =? 0 then 1000 else _audio_count s1)
    else s1 in
  if 0 <? _audio_count s2
  then
    let c := _audio_count s2 - 1 in
    (mk (_audio_start s2) (_audio_stop s2) c,
     [gpio_set_level PIN_BUZZER (Z.land c 1)])
  else (s2, []).

(** Calls made on the audio module, from any thread or from the timer
    interrupt. *)
Inductive call : Type := Start | Stop | Tick.

Definition step (c : call) (s : vars) : vars * list effect :=
  match c with
  | Start => (audio_start s, [])
  | Stop => (audio_stop s, [])
  | Tick => audio_tick s
  end.

Fixpoint run (cs : list call) (s : vars) : vars :=
  match cs with
  | [] => s
  | c :: cs' => run cs' (fst (step c s))
  end.

(** One record per tick of a run: the variables before the tick, the
    variables after it, and what the tick wrote. *)
Record tick_record : Type := tick
  { before : vars; after : vars; written : list effect }.

Fixpoint ticks (cs : list call) (s : vars) : list tick_record :=
  match cs with
  | [] => []
  | Tick :: cs' =>
      tick s (fst (audio_tick s)) (snd (audio_tick s))
        :: ticks cs' (fst (audio_tick s))
  | c :: cs' => ticks cs' (fst (step c s))
  end.

(** Two ticks that follow one another in a run. *)
Fixpoint consecutive {A : Type} (R : A -> A -> Prop) (l : list A) : Prop :=
  match l with
  | a :: t =>
      match t with
      | b :: _ => R a b
      | [] => True
      end /\ consecutive R t
  | [] => True
  end.

(** What the design text asks of one tick of a run: the counter stays
    within the duration; while it is positive the level written is the parity
    of the ticks elapsed; when the tick brings it to 0 the level written is
    low. *)
Definition follows_counter (r : tick_record) : Prop :=
  0 <= _audio_count (after r) <= 1000 /\
  (0 < _audio_count (after r) ->
     written r =
       [gpio_set_level PIN_BUZZER ((1000 - _audio_count (after r)) mod 2)]) /\
  (_audio_count (after r) = 0 ->
     0 < _audio_count (before r) \/ _audio_stop (before r) = true ->
     written r = [gpio_set_level PIN_BUZZER 0]).

(** Two ticks in a row that both leave the counter positive write opposite
    levels. *)
Definition toggles (r1 r2 : tick_record) : Prop :=
  0 < _audio_count (after r1) -> 0 < _audio_count (after r2) ->
  exists l,
    written r1 = [gpio_set_level PIN_BUZZER l] /\
    written r2 = [gpio_set_level PIN_BUZZER (1 - l)].

(** The design text's account of a stop request, tick by tick: the tick that
    consumes the request leaves the counter at 1, the tick after it writes the
    transducer low, and with that tick the counter reaches 0. *)
Definition stop_takes_two_ticks (s : vars) : Prop :=
  _audio_count (fst (audio_tick s)) = 1 /\
  snd (audio_tick (fst (audio_tick s))) = [gpio_set_level PIN_BUZZER 0] /\
  _audio_count (fst (audio_tick (fst (audio_tick s)))) = 0.

End Audio.

(** ** gpio.c *)

Module Gpio.

(** Define the pins that make up the module ID, in order, big endian. *)
Definition ID_SIZE : Z := 7.
Definition _id_pins : list Z := [25; 26; 27; 9; 10; 13; 5].

(** [gpio_get_level] returns 0 or 1: an input level is a [bool]. *)
Definition gpio_get_level (level : Z -> bool) (pin : Z) : Z :=
  Z.b2z (level pin).

(** [id] is a [uint8_t]: every assignment converts back to 8 bits. *)
Definition read_module_id (level : Z -> bool) : Z :=
  fold_left
    (fun id p => uint8 (Z.lor (Z.shiftl id 1) (gpio_get_level level p)))
    _id_pins 0.

End Gpio.

(** ** wifi.c *)

Module Wifi.

Definition WIFI_MAX_RETRIES : Z := 6.
Definition WIFI_CONNECTED : Z := 1.
Definition WIFI_FAILED : Z := 2.

(** The events the handler is registered for: every WIFI_EVENT, and
    IP_EVENT_STA_GOT_IP. *)
Inductive event : Type :=
| WIFI_EVENT_STA_START
| WIFI_EVENT_STA_DISCONNECTED
| WIFI_EVENT_other
| IP_EVENT_STA_GOT_IP.

Record vars : Type := mk
  { _wifi_event_signal : Z;       (* bits of the event group *)
    _wifi_connect_retries : Z }.  (* Number of retries so far. *)

(** [_wifi_connect_retries++] is only reached below WIFI_MAX_RETRIES. *)
Definition event_handler (e : event) (s : vars) : vars * list effect :=
  match e with
  | WIFI_EVENT_STA_START =>
      (mk (_wifi_event_signal s) 0, [esp_wifi_connect])
  | WIFI_EVENT_STA_DISCONNECTED =>
      if WIFI_MAX_RETRIES <=? _wifi_connect_retries s
      then (mk (Z.lor (_wifi_event_signal s) WIFI_FAILED)
               (_wifi_connect_retries s),
            [xEventGroupSetBits WIFI_FAILED])
      else (mk (_wifi_event_signal s) (_wifi_connect_retries s + 1),
            [esp_wifi_connect])
  | IP_EVENT_STA_GOT_IP =>
      (mk (Z.lor (_wifi_event_signal s) WIFI_CONNECTED)
          (_wifi_connect_retries s),
       [xEventGroupSetBits WIFI_CONNECTED])
  | WIFI_EVENT_other => (s, [])
  end.

(** [xEventGroupCreate] gives an event group with no bit set. *)
Definition wifi_init (s : vars) : vars := mk 0 (_wifi_connect_retries s).

(** The caller blocks in [xEventGroupWaitBits (.., bits, pdFALSE, pdFALSE,
    portMAX_DELAY)]: it returns at once when one of [bits] is already set,
    and otherwise the event loop runs the handler on the driver's events,
    one by one, until the handler sets one.  Nothing is cleared on exit.
    [None]: the events given ran out with the caller still blocked. *)
Fixpoint xEventGroupWaitBits (bits : Z) (evs : list event) (s : vars)
  {struct evs} : option (Z * vars * list effect) :=
  if negb (Z.land (_wifi_event_signal s) bits =? 0)
  then Some (_wifi_event_signal s, s, [])
  else
    match evs with
    | [] => None
    | e :: evs' =>
        let '(s1, es1) := event_handler e s in
        match xEventGroupWaitBits bits evs' s1 with
        | Some (signal, s2, es2) => Some (signal, s2, es1 ++ es2)
        | None => None
        end
    end.

Definition wifi_connect (evs : list event) (s : vars)
  : option (bool * vars * list effect) :=
  match xEventGroupWaitBits (Z.lor WIFI_CONNECTED WIFI_FAILED) evs s with
  | None => None
  | Some (signal, s', es) =>
      Some (Z.land signal WIFI_FAILED =? 0, s', esp_wifi_start :: es)
  end.

End Wifi.

(** ** The whole firmware: every module's variables *)

Module State.

Record vars : Type := mk
  { _connected : bool;
    _led_on : bool;
    _button_pressed : bool;
    _status_flashing : bool;
    _flash_phase : Z }.

End State.

Record fw : Type := mkfw
  { audio : Audio.vars;
    state : State.vars;
    _host_socket : Z;
    wifi : Wifi.vars;
    _timer_state_divide : Z }.

Definition set_audio (a : Audio.vars) (s : fw) : fw :=
  mkfw a (state s) (_host_socket s) (wifi s) (_timer_state_divide s).
Definition set_state (t : State.vars) (s : fw) : fw :=
  mkfw (audio s) t (_host_socket s) (wifi s) (_timer_state_divide s).
Definition set_host_socket (k : Z) (s : fw) : fw :=
  mkfw (audio s) (state s) k (wifi s) (_timer_state_divide s).
Definition set_wifi (w : Wifi.vars) (s : fw) : fw :=
  mkfw (audio s) (state s) (_host_socket s) w (_timer_state_divide s).
Definition set_timer_state_divide (d : Z) (s : fw) : fw :=
  mkfw (audio s) (state s) (_host_socket s) (wifi s) d.

(** A C function of the firmware: it reads and writes the variables, performs
    effects in order, and returns a value. *)
Definition M (A : Type) : Type := fw -> A * fw * list effect.

Definition ret {A : Type} (a : A) : M A := fun s => (a, s, []).

Definition bind {A B : Type} (m : M A) (k : A -> M B) : M B :=
  fun s =>
    let '(a, s1, es1) := m s in
    let '(b, s2, es2) := k a s1 in
    (b, s2, es1 ++ es2).

Definition gets {A : Type} (f : fw -> A) : M A := fun s => (f s, s, []).
Definition modify (f : fw -> fw) : M unit := fun s => (tt, f s, []).
Definition emit (e : effect) : M unit := fun s => (tt, s, [e]).

Declare Scope fw_scope.
Delimit Scope fw_scope with fw.
Notation "x <- m ;; k" := (bind m (fun x => k))
  (at level 61, m at next level, right associativity) : fw_scope.
Notation "m ;; k" := (bind m (fun _ => k))
  (at level 61, right associativity) : fw_scope.
Local Open Scope fw_scope.

Definition result {A : Type} (r : A * fw * list effect) : A := fst (fst r).
Definition final {A : Type} (r : A * fw * list effect) : fw := snd (fst r).
Definition effects {A : Type} (r : A * fw * list effect) : list effect := snd r.

(** A function of audio.c, run on the firmware's variables. *)
Definition audio_call (f : Audio.vars -> Audio.vars) : M unit :=
  modify (fun s => set_audio (f (audio s)) s).

Definition audio_tick : M unit :=
  fun s =>
    let '(a, es) := Audio.audio_tick (audio s) in
    (tt, set_audio a s, es).

(** ** host.c, sending *)

Definition MSG_VERSION : Z := 0x04.
Definition MSG_MODE_PREFIX : Z := 0x20.
Definition MSG_MODE_MASK : Z := 0xFC.
Definition MSG_MODE_LED : Z := 0x01.
Definition MSG_MODE_AUDIO : Z := 0x02.
Definition MSG_PRESS : Z := 0x30.
Definition MSG_HEARTBEAT : Z := 0x31.
Definition MSG_ERR_BAD_MSG : Z := 0x7F.
Definition MSG_ID_PREFIX : Z := 0x80.

(** [send_ret] is what [send] returns if it is called.  The parameter is a
    [uint8_t]. *)
Definition host_send (message_byte : Z) (send_ret : Z) : M bool :=
  sock <- gets _host_socket ;;
  if sock =? 0 then ret false
  else
    emit (send (uint8 message_byte) send_ret) ;;
    if send_ret <? 0
    then modify (set_host_socket 0) ;; ret false
    else ret true.

Definition host_send_press (send_ret : Z) : M unit :=
  emit press_reported ;;
  host_send MSG_PRESS send_ret ;;
  ret tt.

(** ** state.c *)

Definition set_connected (b : bool) : M unit :=
  modify (fun s =>
    let t := state s in
    set_state (State.mk b (State._led_on t) (State._button_pressed t)
                 (State._status_flashing t) (State._flash_phase t)) s).
Definition set_led_on (b : bool) : M unit :=
  modify (fun s =>
    let t := state s in
    set_state (State.mk (State._connected t) b (State._button_pressed t)
                 (State._status_flashing t) (State._flash_phase t)) s).
Definition set_button_pressed (b : bool) : M unit :=
  modify (fun s =>
    let t := state s in
    set_state (State.mk (State._connected t) (State._led_on t) b
                 (State._status_flashing t) (State._flash_phase t)) s).
Definition set_status_flashing (b : bool) : M unit :=
  modify (fun s =>
    let t := state s in
    set_state (State.mk (State._connected t) (State._led_on t)
                 (State._button_pressed t) b (State._flash_phase t)) s).
Definition set_flash_phase (p : Z) : M unit :=
  modify (fun s =>
    let t := state s in
    set_state (State.mk (State._connected t) (State._led_on t)
                 (State._button_pressed t) (State._status_flashing t) p) s).

(** [level] is the level of PIN_BUTTON; the button is wired active low. *)
Definition check_button (level : bool) (send_ret : Z) : M unit :=
  let pin := Z.b2z level in
  let new_state := pin =? 0 in
  pressed <- gets (fun s => State._button_pressed (state s)) ;;
  connected <- gets (fun s => State._connected (state s)) ;;
  (if new_state && negb pressed && connected
   then host_send_press send_ret
   else ret tt) ;;
  set_button_pressed new_state ;;
  if new_state
  then emit (gpio_set_level PIN_LED_PCB 1)
  else emit (gpio_set_level PIN_LED_PCB 0).

Definition state_connect : M unit :=
  set_connected false ;;
  set_led_on false ;;
  set_status_flashing true ;;
  emit (gpio_set_level PIN_LED_BUTTON 0) ;;
  audio_call Audio.audio_stop.

Definition state_connected : M unit :=
  set_connected true ;;
  set_led_on false ;;
  set_status_flashing false ;;
  emit (gpio_set_level PIN_LED_BUTTON 0) ;;
  audio_call Audio.audio_stop.

Definition state_enable (led audio : bool) : M unit :=
  set_led_on led ;;
  emit (gpio_set_level PIN_LED_BUTTON (if led then 1 else 0)) ;;
  (if audio
   then audio_call Audio.audio_start
   else audio_call Audio.audio_stop) ;;
  set_status_flashing false.

Definition state_tick : M unit :=
  flashing <- gets (fun s => State._status_flashing (state s)) ;;
  phase <- gets (fun s => State._flash_phase (state s)) ;;
  (if flashing
   then set_flash_phase (1 - phase)
   else set_flash_phase 1) ;;
  phase' <- gets (fun s => State._flash_phase (state s)) ;;
  emit (gpio_set_level PIN_LED_STATUS phase').

(** The task creation of [state_init] is not modelled: the button task's
    samples are the arguments of [check_button]. *)
Definition state_init : M unit :=
  set_flash_phase 0 ;;
  state_connect.

(** Samples of the button task: each is the pin level and what [send] would
    return.  The task's wait of about 10 ms between two samples is not
    recorded. *)
Fixpoint button_poll_task (samples : list (bool * Z)) : M unit :=
  match samples with
  | [] => ret tt
  | (level, send_ret) :: rest =>
      check_button level send_ret ;;
      button_poll_task rest
  end.

(** ** host.c, the session *)

(** What the outside gives to one [host_connect]. *)
Record link : Type := mklink
  { socket_ret : Z;          (* socket() *)
    connect_ret : Z;         (* connect() *)
    id_level : Z -> bool;    (* levels of the input pins *)
    version_ret : Z;         (* send() of the version message *)
    id_ret : Z }.            (* send() of the ID message *)

Definition host_connect (l : link) : M bool :=
  let sock := socket_ret l in
  if sock <? 0
  then modify (set_host_socket 0) ;; ret false
  else
    let err := connect_ret l in
    if negb (err =? 0)
    then emit (close sock) ;; modify (set_host_socket 0) ;; ret false
    else
      modify (set_host_socket sock) ;;
      let id := Gpio.read_module_id (id_level l) in
      sent <- host_send MSG_VERSION (version_ret l) ;;
      if negb sent then ret false
      else
        sent <- host_send (Z.lor MSG_ID_PREFIX id) (id_ret l) ;;
        if negb sent then ret false
        else ret true.

Section Heartbeat.

(** FreeRTOS configuration, not part of the sources: milliseconds per
    RTOS tick. *)
Variable portTICK_PERIOD_MS : Z.

(** The rounds of the heartbeat task: each sends a heartbeat and then waits
    about a second.  [rets] are the values [send] returns, one per round. *)
Fixpoint heartbeat_task (rets : list Z) : M unit :=
  match rets with
  | [] => ret tt
  | r :: rest =>
      host_send MSG_HEARTBEAT r ;;
      emit (vTaskDelay (Z.quot 1000 portTICK_PERIOD_MS)) ;;
      heartbeat_task rest
  end.

End Heartbeat.

(** What the other two tasks do to the shared variables and the socket
    while the main task is blocked in [recv]: the heartbeat task calls
    [host_send] with a heartbeat, the button task takes a sample with
    [check_button] (and so may call [host_send_press]).  Their own waits
    between two rounds are theirs and are not recorded with the session. *)
Inductive other : Type :=
| heartbeat (send_ret : Z)
| sample (level : bool) (send_ret : Z).

Definition other_task (o : other) : M unit :=
  match o with
  | heartbeat send_ret => host_send MSG_HEARTBEAT send_ret ;; ret tt
  | sample level send_ret => check_button level send_ret
  end.

Fixpoint other_tasks (os : list other) : M unit :=
  match os with
  | [] => ret tt
  | o :: rest => other_task o ;; other_tasks rest
  end.

(** What the outside gives to one turn of the receive loop.  [meanwhile] is
    what the other tasks do, in order, while [recv] blocks.  (A step that
    another task takes after the byte was processed and before the loop
    tests the socket again is the same step in a further turn whose byte is
    no mode message: see [late_step_is_a_turn].)  [recv_ret] is
    what [recv] returns (1: a byte was read; 0: the peer closed; negative:
    error) and [msg] the content of the one-byte buffer after the call.
    [reply_ret] is what [send] returns for this turn's error reply, if one is
    sent. *)
Record turn : Type := mkturn
  { meanwhile : list other;
    recv_ret : Z;
    msg : Z;
    reply_ret : Z }.

(** The body of the [while] loop.  The value of [recv] is not looked at. *)
Definition process_message (t : turn) : M unit :=
  other_tasks (meanwhile t) ;;
  let msg := uint8 (msg t) in
  if Z.land msg MSG_MODE_MASK =? MSG_MODE_PREFIX
  then
    let led := negb (Z.land msg MSG_MODE_LED =? 0) in
    let audio := negb (Z.land msg MSG_MODE_AUDIO =? 0) in
    state_enable led audio
  else
    host_send MSG_ERR_BAD_MSG (reply_ret t) ;;
    ret tt.

(** [None]: the turns given ran out with the loop still running. *)
Fixpoint host_process_messages (turns : list turn) (s : fw)
  {struct turns} : option (fw * list effect) :=
  if _host_socket s =? 0 then Some (s, [])
  else
    match turns with
    | [] => None
    | t :: rest =>
        let '(_, s1, es1) := process_message t s in
        match host_process_messages rest s1 with
        | Some (s2, es2) => Some (s2, es1 ++ es2)
        | None => None
        end
    end.

(** ** main.c *)

Definition audio_isr : M unit :=
  audio_tick ;;
  d <- gets _timer_state_divide ;;
  modify (set_timer_state_divide (d + 1)) ;;
  d' <- gets _timer_state_divide ;;
  if 125 <=? d'
  then state_tick ;; modify (set_timer_state_divide 0)
  else ret tt.

(** What the outside gives to one call of [run]. *)
Record attempt : Type := mkattempt
  { wifi_events : list Wifi.event;
    host_link : link;
    session : list turn }.

(** [None]: the call is still blocked when what the outside gave runs out. *)
Definition run (a : attempt) (s : fw) : option (bool * fw * list effect) :=
  let '(_, s1, es1) := state_connect s in
  match Wifi.wifi_connect (wifi_events a) (wifi s1) with
  | None => None
  | Some (up, w, es2) =>
      let s2 := set_wifi w s1 in
      if negb up then Some (false, s2, es1 ++ es2)
      else
        let '(open, s3, es3) := host_connect (host_link a) s2 in
        if negb open then Some (false, s3, es1 ++ es2 ++ es3)
        else
          let '(_, s4, es4) := state_connected s3 in
          match host_process_messages (session a) s4 with
          | None => None
          | Some (s5, es5) => Some (true, s5, es1 ++ es2 ++ es3 ++ es4 ++ es5)
          end
  end.

Section Main.

(** FreeRTOS configuration, not part of the sources: milliseconds per
    RTOS tick. *)
Variable portTICK_PERIOD_MS : Z.

(** One turn of the main loop of [app_main]. *)
Definition main_loop_body (a : attempt) (s : fw) : option (fw * list effect) :=
  match run a s with
  | None => None
  | Some (connected, s', es) =>
      if negb connected
      then Some (s', es ++ [vTaskDelay (Z.quot 2000 portTICK_PERIOD_MS)])
      else Some (s', es)
  end.

Fixpoint main_loop (attempts : list attempt) (s : fw) : option (fw * list effect) :=
  match attempts with
  | [] => Some (s, [])
  | a :: rest =>
      match main_loop_body a s with
      | None => None
      | Some (s1, es1) =>
          match main_loop rest s1 with
          | None => None
          | Some (s2, es2) => Some (s2, es1 ++ es2)
          end
      end
  end.

End Main.

(** The variables when the main loop starts: statics are zero, then
    [wifi_init], [state_init], [host_init], [audio_init], [setup_timer]. *)
Definition statics : fw :=
  mkfw (Audio.mk false false 0) (State.mk false false false false 0) 0
       (Wifi.mk 0 0) 0.

Definition init : M unit :=
  modify (fun s => set_wifi (Wifi.wifi_init (wifi s)) s) ;;
  state_init ;;
  modify (set_host_socket 0) ;;
  audio_call (fun _ => Audio.audio_init) ;;
  modify (set_timer_state_divide 0).

Definition boot : fw := final (init statics).

(** ** Readings of the effects, and the design text's words *)

(** The bytes handed to [send], in order. *)
Fixpoint sent_bytes (es : list effect) : list Z :=
  match es with
  | [] => []
  | send b _ :: rest => b :: sent_bytes rest
  | _ :: rest => sent_bytes rest
  end.

(** The number of calls of [host_send_press]. *)
Fixpoint presses (es : list effect) : nat :=
  match es with
  | [] => O
  | press_reported :: rest => S (presses rest)
  | _ :: rest => presses rest
  end.

(** The levels written to one pin, in order. *)
Fixpoint levels_written (pin : Z) (es : list effect) : list Z :=
  match es with
  | [] => []
  | gpio_set_level p l :: rest =>
      if p =? pin then l :: levels_written pin rest
      else levels_written pin rest
  | _ :: rest => levels_written pin rest
  end.

(** The RTOS delays, in order. *)
Fixpoint delays (es : list effect) : list Z :=
  match es with
  | [] => []
  | vTaskDelay t :: rest => t :: delays rest
  | _ :: rest => delays rest
  end.

(** Big-endian concatenation of bits: the first is the most significant. *)
Definition big_endian (bits : list bool) : Z :=
  fold_left (fun acc b => 2 * acc + Z.b2z b) bits 0.

(** A link on which [host_connect] gets as far as the ID message: a socket
    (host.c keeps 0 for no socket, so a descriptor above 0), a connection,
    and the version message sent. *)
Definition link_opens (l : link) : Prop :=
  0 < socket_ret l /\ connect_ret l = 0 /\ 0 <= version_ret l.

(** The design text's layout of the ID message: the two high bits are a fixed
    prefix and the six low bits are the module ID. *)
Definition id_message_two_six : Prop :=
  exists prefix : Z,
    forall (l : link) (s : fw), link_opens l ->
      exists b : Z,
        sent_bytes (effects (host_connect l s)) = [MSG_VERSION; b] /\
        Z.shiftr b 6 = prefix /\
        Z.land b 0x3F = Gpio.read_module_id (id_level l).

(** A link on which everything succeeds, with socket 54 and the given pin
    levels. *)
Definition good_link (level : Z -> bool) : link := mklink 54 0 level 1 1.

(** The design text's state machine (its section 4.2).  [applyMode] is given
    there for the two connected states only; from DISCONNECTED it is taken to
    change nothing. *)
Inductive ConnectivityState : Type := DISCONNECTED | CONNECTED_IDLE | ACTIVE.

Inductive transition : Type :=
| enterConnecting
| enterConnected
| applyMode (ledOn audioOn : bool).

Definition fsm (t : transition) (c : ConnectivityState) : ConnectivityState :=
  match t with
  | enterConnecting => DISCONNECTED
  | enterConnected => CONNECTED_IDLE
  | applyMode _ _ =>
      match c with
      | DISCONNECTED => DISCONNECTED
      | _ => ACTIVE
      end
  end.

(** The function of state.c behind each transition. *)
Definition perform (t : transition) : M unit :=
  match t with
  | enterConnecting => state_connect
  | enterConnected => state_connected
  | applyMode led audio => state_enable led audio
  end.

(** state.c keeps one flag of the three states: [_connected] is clear in
    DISCONNECTED and set in the other two. *)
Definition represents (c : ConnectivityState) (s : fw) : Prop :=
  c = DISCONNECTED <-> State._connected (state s) = false.

(** The design text's account of [connect()]: whenever a call starts from a
    retry count of 0, seven disconnections in a row make it raise FAILED and
    return failure, and an address acquired after at most six disconnections
    makes it raise CONNECTED and return success. *)
Definition connect_as_stated : Prop :=
  forall (s : Wifi.vars) (rest : list Wifi.event),
    Wifi._wifi_connect_retries s = 0 ->
    (exists s' es,
       Wifi.wifi_connect
         (Wifi.WIFI_EVENT_STA_START
            :: repeat Wifi.WIFI_EVENT_STA_DISCONNECTED 7 ++ rest) s =
         Some (false, s', es) /\
       In (xEventGroupSetBits Wifi.WIFI_FAILED) es) /\
    (forall k : nat, (k <= 6)%nat ->
       exists s' es,
         Wifi.wifi_connect
           (Wifi.WIFI_EVENT_STA_START
              :: repeat Wifi.WIFI_EVENT_STA_DISCONNECTED k
              ++ Wifi.IP_EVENT_STA_GOT_IP :: rest) s =
           Some (true, s', es) /\
         In (xEventGroupSetBits Wifi.WIFI_CONNECTED) es).

(** The two outcomes of a call. *)
Definition connected_outcome (r : bool) (s' : Wifi.vars) (es : list effect) : Prop :=
  r = true /\ Wifi._wifi_event_signal s' = Wifi.WIFI_CONNECTED /\
  In (xEventGroupSetBits Wifi.WIFI_CONNECTED) es /\
  ~ In (xEventGroupSetBits Wifi.WIFI_FAILED) es.

Definition failed_outcome (r : bool) (s' : Wifi.vars) (es : list effect) : Prop :=
  r = false /\ Wifi._wifi_event_signal s' = Wifi.WIFI_FAILED /\
  In (xEventGroupSetBits Wifi.WIFI_FAILED) es /\
  ~ In (xEventGroupSetBits Wifi.WIFI_CONNECTED) es.



(** Whether a received byte is a mode message. *)
Definition is_mode_message (b : Z) : bool :=
  Z.land (uint8 b) MSG_MODE_MASK =? MSG_MODE_PREFIX.




(** The variables once a session is open on [good_link] with every ID pin
    low. *)
Definition open_session : fw :=
  final (state_connected (final (host_connect (good_link (fun _ => false)) boot))).


(** How far one call of [run] gets, read off its parts: whether the WIFI
    connection came up, and, if it did, whether the session opened. *)
Definition wifi_came_up (a : attempt) (s : fw) : option bool :=
  match Wifi.wifi_connect (wifi_events a) (wifi (final (state_connect s))) with
  | Some (up, _, _) => Some up
  | None => None
  end.

Definition session_opened (a : attempt) (s : fw) : option bool :=
  match Wifi.wifi_connect (wifi_events a) (wifi (final (state_connect s))) with
  | Some (true, w, _) =>
      Some (result (host_connect (host_link a)
                      (set_wifi w (final (state_connect s)))))
  | _ => None
  end.

(** A function that never delays and never touches [_connected]. *)
Definition keeps {A : Type} (m : M A) : Prop :=
  forall s : fw,
    delays (effects (m s)) = [] /\
    State._connected (state (final (m s))) = State._connected (state s).

(** Attempts used as examples: the network refuses seven times; the network
    and the session come up, and the error reply to the session's one byte
    fails. *)
Definition attempt_no_wifi : attempt :=
  mkattempt
    (Wifi.WIFI_EVENT_STA_START :: repeat Wifi.WIFI_EVENT_STA_DISCONNECTED 7)
    (good_link (fun _ => false)) [].

Definition attempt_session_lost : attempt :=
  mkattempt
    [Wifi.WIFI_EVENT_STA_START; Wifi.IP_EVENT_STA_GOT_IP]
    (good_link (fun _ => false))
    [mkturn [] 1 0x01 (-1)].

(** The first example, run through one turn of the main loop with 10 ms per
    RTOS tick. *)
Definition after_no_wifi : fw * list effect :=
  match main_loop_body 10 attempt_no_wifi boot with
  | Some r => r
  | None => (boot, [])
  end.





(** The second example twice: two sessions, each opened and then lost. *)
Definition after_two_sessions : fw * list effect :=
  match main_loop 10 [attempt_session_lost; attempt_session_lost] boot with
  | Some r => r
  | None => (boot, [])
  end.

(** ** Further readings, for the properties beyond the claims *)

(** Everything the ticks of a run of audio calls wrote, in order. *)
Definition run_written (cs : list Audio.call) (s : Audio.vars) : list effect :=
  concat (map Audio.written (Audio.ticks cs s)).

Definition is_start (c : Audio.call) : bool :=
  match c with Audio.Start => true | _ => false end.

Definition is_stop (c : Audio.call) : bool :=
  match c with Audio.Stop => true | _ => false end.

(** A function of the firmware called [n] times in a row. *)
Fixpoint times (n : nat) (m : M unit) : M unit :=
  match n with
  | O => ret tt
  | S k => m ;; times k m
  end.

(** [n] levels, each the opposite of the one before, after level [p]. *)
Fixpoint blink (n : nat) (p : Z) : list Z :=
  match n with
  | O => []
  | S k => (1 - p) :: blink k (1 - p)
  end.

(** The calls of [send], in order: the byte and what [send] returned. *)
Fixpoint wire (es : list effect) : list (Z * Z) :=
  match es with
  | [] => []
  | send b r :: rest => (b, r) :: wire rest
  | _ :: rest => wire rest
  end.

(** The values returned by [send] up to the first failure, and that one. *)
Fixpoint until_failure (rets : list Z) : list Z :=
  match rets with
  | [] => []
  | r :: rest => if r <? 0 then [r] else r :: until_failure rest
  end.

(** The seven low bits of a module ID, most significant first. *)
Definition id_bits (id : Z) : list bool :=
  map (Z.testbit id) [6; 5; 4; 3; 2; 1; 0].

(** The number of disconnection events in a list. *)
Fixpoint disconnections (evs : list Wifi.event) : Z :=
  match evs with
  | [] => 0
  | Wifi.WIFI_EVENT_STA_DISCONNECTED :: rest => 1 + disconnections rest
  | _ :: rest => disconnections rest
  end.

Definition is_got_ip (e : Wifi.event) : bool :=
  match e with Wifi.IP_EVENT_STA_GOT_IP => true | _ => false end.

(** * Properties *)

(** ** audio.c: the tick, case by case *)

Section AudioTick.

Import Audio.

Lemma tick_stop_pending (s : vars) :
  _audio_stop s = true ->
  Audio.audio_tick s = (mk false false 0, [gpio_set_level PIN_BUZZER 0]).
Proof.
  destruct s as [st sp c]; simpl; intros ->.
  unfold Audio.audio_tick; simpl.
  destruct st; reflexivity.
Qed.

Lemma tick_start_idle (s : vars) :
  _audio_stop s = false -> _audio_start s = true -> _audio_count s = 0 ->
  Audio.audio_tick s = (mk false false 999, [gpio_set_level PIN_BUZZER 1]).
Proof.
  destruct s as [st sp c]; simpl; intros -> -> ->. reflexivity.
Qed.

Lemma tick_playing (s : vars) :
  _audio_stop s = false -> 0 < _audio_count s ->
  Audio.audio_tick s =
    (mk false false (_audio_count s - 1),
     [gpio_set_level PIN_BUZZER (Z.land (_audio_count s - 1) 1)]).
Proof.
  destruct s as [st sp c]; simpl; intros -> Hc.
  unfold Audio.audio_tick; simpl.
  assert (Hz : (c =? 0) = false) by (apply Z.eqb_neq; lia).
  assert (Hp : (0 <? c) = true) by (apply Z.ltb_lt; lia).
  destruct st; simpl; rewrite ?Hz, Hp; reflexivity.
Qed.

Lemma tick_idle (s : vars) :
  _audio_stop s = false -> _audio_start s = false -> _audio_count s <= 0 ->
  Audio.audio_tick s = (s, []).
Proof.
  destruct s as [st sp c]; simpl; intros -> -> Hc.
  unfold Audio.audio_tick; simpl.
  assert (Hp : (0 <? c) = false) by (apply Z.ltb_ge; lia).
  rewrite Hp. reflexivity.
Qed.

(** The low bit of the counter is its parity, and 1000 is even. *)
Lemma low_bit_elapsed (c : Z) : Z.land c 1 = (1000 - c) mod 2.
Proof.
  change 1 with (Z.ones 1). rewrite Z.land_ones by lia.
  change (2 ^ 1) with 2.
  replace (1000 - c) with (c + (-c + 500) * 2) by lia.
  rewrite Z.mod_add by lia. reflexivity.
Qed.

(** What one tick does, whatever the variables hold: a counter that is
    positive after the tick was decremented by it and its parity written; a
    counter that is 0 after the tick was written low if the tick had
    anything to do. *)
Lemma tick_output (s : vars) :
  let s' := fst (Audio.audio_tick s) in
  let w := snd (Audio.audio_tick s) in
  (0 < _audio_count s' ->
     w = [gpio_set_level PIN_BUZZER ((1000 - _audio_count s') mod 2)]) /\
  (_audio_count s' = 0 ->
     0 < _audio_count s \/ _audio_stop s = true ->
     w = [gpio_set_level PIN_BUZZER 0]).
Proof.
  destruct (_audio_stop s) eqn:Hsp.
  - rewrite (tick_stop_pending s Hsp); simpl. split; [lia | reflexivity].
  - destruct (Z.ltb_spec 0 (_audio_count s)) as [Hc | Hc].
    + rewrite (tick_playing s Hsp Hc); simpl.
      split; intros H.
      * rewrite low_bit_elapsed. reflexivity.
      * rewrite H. reflexivity.
    + destruct (_audio_start s) eqn:Hst.
      * destruct (Z.eq_dec (_audio_count s) 0) as [Hz | Hz].
        -- rewrite (tick_start_idle s Hsp Hst Hz); simpl.
           split; [reflexivity | lia].
        -- destruct s as [st sp c]; simpl in *; subst st sp.
           unfold Audio.audio_tick; simpl.
           assert (Hn : (c =? 0) = false) by (apply Z.eqb_neq; lia).
           assert (Hp : (0 <? c) = false) by (apply Z.ltb_ge; lia).
           rewrite Hn; simpl. rewrite Hp; simpl.
           split; intros H; [lia | intros [H' | H']; [lia | discriminate]].
      * rewrite (tick_idle s Hsp Hst Hc); simpl.
        split; intros H; [lia | intros [H' | H']; [lia | congruence]].
Qed.

(** The counter stays between 0 and the duration. *)
Lemma step_count_range (c : call) (s : vars) :
  0 <= _audio_count s <= 1000 ->
  0 <= _audio_count (fst (step c s)) <= 1000.
Proof.
  intros H. destruct c; simpl; try exact H.
  destruct (_audio_stop s) eqn:Hsp.
  - rewrite (tick_stop_pending s Hsp); simpl; lia.
  - destruct (Z.ltb_spec 0 (_audio_count s)) as [Hc | Hc].
    + rewrite (tick_playing s Hsp Hc); simpl; lia.
    + destruct (_audio_start s) eqn:Hst.
      * rewrite (tick_start_idle s Hsp Hst) by lia; simpl; lia.
      * rewrite (tick_idle s Hsp Hst Hc); simpl; lia.
Qed.

Lemma run_count_range (cs : list call) (s : vars) :
  0 <= _audio_count s <= 1000 ->
  0 <= _audio_count (run cs s) <= 1000.
Proof.
  revert s. induction cs as [| c cs IH]; intros s H; simpl; [exact H | ].
  apply IH, step_count_range, H.
Qed.

End AudioTick.

(** ** audio.c: the claims *)

Section AudioClaims.

Import Audio.

(** Between two ticks of a run the counter does not move: the next tick of a
    run starts from the counter the run has now. *)
Lemma ticks_head (cs : list call) (s : vars) (r : tick_record) (rest : list tick_record) :
  ticks cs s = r :: rest ->
  exists sb,
    r = tick sb (fst (Audio.audio_tick sb)) (snd (Audio.audio_tick sb)) /\
    _audio_count sb = _audio_count s.
Proof.
  revert s. induction cs as [| c cs IH]; intros s H; simpl in H; [discriminate | ].
  destruct c; simpl in H.
  - destruct (IH _ H) as [sb [Hr Hc]]. exists sb. split; [exact Hr | exact Hc].
  - destruct (IH _ H) as [sb [Hr Hc]]. exists sb. split; [exact Hr | exact Hc].
  - inversion H; subst. exists s. split; reflexivity.
Qed.

Lemma ticks_inv (Inv : vars -> Prop) (P : tick_record -> Prop) :
  (forall c s, Inv s -> Inv (fst (step c s))) ->
  (forall s, Inv s ->
     P (tick s (fst (Audio.audio_tick s)) (snd (Audio.audio_tick s)))) ->
  forall cs s, Inv s -> Forall P (ticks cs s).
Proof.
  intros Hstep HP. induction cs as [| c cs IH]; intros s Hs; simpl; [constructor | ].
  destruct c.
  - apply IH. apply (Hstep Start s Hs).
  - apply IH. apply (Hstep Stop s Hs).
  - constructor; [apply HP, Hs | apply IH; apply (Hstep Tick s Hs)].
Qed.

(** A tick that leaves the counter positive found it one higher, and no stop
    pending. *)
Lemma tick_positive_after (s : vars) :
  0 <= _audio_count s ->
  0 < _audio_count (fst (Audio.audio_tick s)) ->
  (_audio_count (fst (Audio.audio_tick s)) = _audio_count s - 1 /\ 0 < _audio_count s) \/
  (_audio_count (fst (Audio.audio_tick s)) = 999 /\ _audio_count s = 0).
Proof.
  intros H0 Hpos.
  destruct (_audio_stop s) eqn:Hsp.
  - rewrite (tick_stop_pending s Hsp) in Hpos; simpl in Hpos; lia.
  - destruct (Z.ltb_spec 0 (_audio_count s)) as [Hc | Hc].
    + rewrite (tick_playing s Hsp Hc) in *; simpl in *. left; lia.
    + destruct (_audio_start s) eqn:Hst.
      * rewrite (tick_start_idle s Hsp Hst) in * by lia; simpl in *. right; lia.
      * rewrite (tick_idle s Hsp Hst Hc) in Hpos; simpl in Hpos; lia.
Qed.

Lemma parity_flips (c : Z) : (1000 - (c - 1)) mod 2 = 1 - (1000 - c) mod 2.
Proof. Z.to_euclidean_division_equations; lia. Qed.

Lemma ticks_toggle (cs : list call) (s : vars) :
  0 <= _audio_count s <= 1000 -> consecutive toggles (ticks cs s).
Proof.
  revert s. induction cs as [| c cs IH]; intros s Hs; simpl; [exact I | ].
  destruct c.
  - apply IH. exact Hs.
  - apply IH. exact Hs.
  - simpl. split; [ | apply IH; apply (step_count_range Tick s Hs)].
    destruct (ticks cs (fst (Audio.audio_tick s))) as [| b rest] eqn:E; [exact I | ].
    destruct (ticks_head _ _ _ _ E) as [sb [-> Hc]].
    intros H1 H2; simpl in *.
    pose proof (step_count_range Tick s Hs) as Hr; simpl in Hr.
    destruct (tick_positive_after sb) as [[Hd Hp] | [_ Hz]]; [lia | exact H2 | | lia].
    exists ((1000 - _audio_count (fst (Audio.audio_tick s))) mod 2). split.
    + apply (proj1 (tick_output s)), H1.
    + rewrite (proj1 (tick_output sb) H2), Hd, Hc. f_equal. f_equal.
      apply parity_flips.
Qed.

(** C1: in every run of start requests, stop requests and ticks from
    [audio_init], each tick that leaves the counter positive writes the level
    (1000 - counter) mod 2 to the transducer, two such ticks in a row write
    opposite levels, and the tick that brings the counter to 0 writes the
    level low. *)
Theorem audio_output_follows_counter (cs : list call) :
  Forall follows_counter (ticks cs audio_init) /\
  consecutive toggles (ticks cs audio_init).
Proof.
  split.
  - apply (ticks_inv (fun s => 0 <= _audio_count s <= 1000)).
    + intros c s. apply step_count_range.
    + intros s Hs. unfold follows_counter; simpl. split.
      * apply (step_count_range Tick s Hs).
      * apply tick_output.
    + simpl; lia.
  - apply ticks_toggle. simpl; lia.
Qed.

End AudioClaims.

(** ** audio.c: stop, start and the idle tick *)

Section AudioRequests.

Import Audio.

(** Testing the stop signal before the start signal, as the design text has
    it, or after it, as audio.c does, gives the same tick. *)
Lemma tick_order_immaterial (s : vars) :
  audio_tick_stop_first s = Audio.audio_tick s.
Proof.
  destruct s as [st sp c].
  unfold audio_tick_stop_first, Audio.audio_tick; simpl.
  destruct st, sp; simpl; try reflexivity.
Qed.

(** C2, as the design text words it, fails: with a stop pending at counter
    500 the consuming tick already leaves the counter at 0, not 1, and has
    itself written the transducer low; the tick after it writes nothing. *)
Lemma stop_takes_one_tick_at_500 :
  ~ stop_takes_two_ticks (mk false true 500) /\
  Audio.audio_tick (mk false true 500) =
    (mk false false 0, [gpio_set_level PIN_BUZZER 0]) /\
  Audio.audio_tick (fst (Audio.audio_tick (mk false true 500))) =
    (mk false false 0, []).
Proof.
  split; [ | split; reflexivity].
  unfold stop_takes_two_ticks. intros [H _]. vm_compute in H. discriminate.
Qed.

(** C2, amended: whatever the counter and whether or not a start is pending
    too, the tick that finds a stop pending clears both signals, sets the
    counter to 1, and in that same tick decrements it to 0 and writes the
    transducer low; the tick after it finds nothing to do.  The order of the
    two tests does not matter to the outcome. *)
Theorem stop_request_wins (s : vars) :
  _audio_stop s = true ->
  Audio.audio_tick s = (mk false false 0, [gpio_set_level PIN_BUZZER 0]) /\
  Audio.audio_tick (fst (Audio.audio_tick s)) = (mk false false 0, []) /\
  audio_tick_stop_first s = Audio.audio_tick s.
Proof.
  intros H. rewrite (tick_stop_pending s H). simpl.
  split; [reflexivity | split; [reflexivity | ]].
  rewrite tick_order_immaterial. apply tick_stop_pending, H.
Qed.

Lemma stop_request_wins_witness :
  Audio.audio_tick (mk true true 500) =
    (mk false false 0, [gpio_set_level PIN_BUZZER 0]) /\
  Audio.audio_tick (fst (Audio.audio_tick (mk true true 500))) =
    (mk false false 0, []) /\
  audio_tick_stop_first (mk true true 500) = Audio.audio_tick (mk true true 500).
Proof. apply (stop_request_wins (mk true true 500)). reflexivity. Defined.

(** C3: with the counter positive, a tick that finds a start pending clears
    the start signal and is otherwise the tick it would have been without the
    request: the counter goes down (by one when no stop is pending) and is
    never set back to the duration. *)
Theorem start_while_active_is_consumed (s : vars) :
  0 < _audio_count s -> _audio_start s = true ->
  _audio_start (fst (Audio.audio_tick s)) = false /\
  Audio.audio_tick s =
    Audio.audio_tick (mk false (_audio_stop s) (_audio_count s)) /\
  (_audio_stop s = false ->
     _audio_count (fst (Audio.audio_tick s)) = _audio_count s - 1) /\
  _audio_count (fst (Audio.audio_tick s)) < _audio_count s.
Proof.
  intros Hc Hst.
  destruct (_audio_stop s) eqn:Hsp.
  - rewrite (tick_stop_pending s Hsp).
    rewrite (tick_stop_pending (mk false true (_audio_count s)) eq_refl).
    simpl. repeat split; [discriminate | lia].
  - rewrite (tick_playing s Hsp Hc).
    rewrite (tick_playing (mk false false (_audio_count s)) eq_refl Hc).
    simpl. repeat split; lia.
Qed.

Lemma start_while_active_is_consumed_witness :
  _audio_start (fst (Audio.audio_tick (mk true false 700))) = false /\
  Audio.audio_tick (mk true false 700) =
    Audio.audio_tick (mk false false 700) /\
  (false = false ->
     _audio_count (fst (Audio.audio_tick (mk true false 700))) = 700 - 1) /\
  _audio_count (fst (Audio.audio_tick (mk true false 700))) < 700.
Proof.
  apply (start_while_active_is_consumed (mk true false 700)); simpl;
    [lia | reflexivity].
Defined.

End AudioRequests.

(** C10: with the counter at 0 and no request pending, the tick changes no
    variable of audio.c, nor any other variable of the firmware, and writes
    nothing: the transducer pin keeps the level it had. *)
Theorem idle_tick_is_noop (f : fw) :
  Audio._audio_count (audio f) = 0 ->
  Audio._audio_start (audio f) = false ->
  Audio._audio_stop (audio f) = false ->
  Audio.audio_tick (audio f) = (audio f, []) /\
  audio_tick f = (tt, f, []).
Proof.
  intros Hc Hst Hsp.
  assert (E : Audio.audio_tick (audio f) = (audio f, []))
    by (apply tick_idle; [exact Hsp | exact Hst | lia]).
  split; [exact E | ].
  unfold audio_tick. rewrite E. destruct f; reflexivity.
Qed.

Lemma idle_tick_is_noop_witness :
  Audio.audio_tick (audio boot) = (audio boot, []) /\
  audio_tick boot = (tt, boot, []).
Proof. apply (idle_tick_is_noop boot); reflexivity. Defined.


(** ** gpio.c and host.c: the ID message *)

(** Unfolding the firmware's functions on variables that are not known. *)
Ltac unfold_m :=
  unfold bind, ret, gets, modify, emit, result, final, effects in *.

Lemma host_send_open (b r : Z) (s : fw) :
  _host_socket s <> 0 ->
  host_send b r s =
    (negb (r <? 0),
     if r <? 0 then set_host_socket 0 s else s,
     [send (uint8 b) r]).
Proof.
  intros H. unfold host_send. unfold_m.
  destruct (Z.eqb_spec (_host_socket s) 0) as [E | _]; [contradiction | ].
  destruct (r <? 0); reflexivity.
Qed.

Lemma host_send_closed (b r : Z) (s : fw) :
  _host_socket s = 0 -> host_send b r s = (false, s, []).
Proof.
  intros H. unfold host_send. unfold_m. rewrite H. reflexivity.
Qed.

(** The module ID is the seven ID pins, first pin first, and fits 7 bits. *)
Lemma read_module_id_big_endian (level : Z -> bool) :
  Gpio.read_module_id level = big_endian (map level Gpio._id_pins) /\
  Gpio.read_module_id level =
    64 * Z.b2z (level 25) + 32 * Z.b2z (level 26) + 16 * Z.b2z (level 27) +
    8 * Z.b2z (level 9) + 4 * Z.b2z (level 10) + 2 * Z.b2z (level 13) +
    Z.b2z (level 5) /\
  0 <= Gpio.read_module_id level < 128.
Proof.
  unfold Gpio.read_module_id, big_endian, Gpio.gpio_get_level; simpl.
  destruct (level 25), (level 26), (level 27), (level 9), (level 10),
    (level 13), (level 5); vm_compute; repeat split; congruence.
Qed.

Lemma id_byte_layout (id : Z) :
  0 <= id < 128 ->
  uint8 (Z.lor MSG_ID_PREFIX id) = 128 + id /\
  Z.shiftr (uint8 (Z.lor MSG_ID_PREFIX id)) 7 = 1 /\
  Z.land (uint8 (Z.lor MSG_ID_PREFIX id)) 0x7F = id.
Proof.
  intros H.
  assert (D : Z.land 128 id = 0).
  { apply Z.bits_inj'. intros n Hn. rewrite Z.land_spec, Z.bits_0.
    destruct (Z.eq_dec n 7) as [-> | Hne].
    - rewrite (Z.bits_above_log2 id 7); [apply andb_false_r | lia | ].
      destruct (Z.eq_dec id 0) as [-> | Hid]; [simpl; lia | ].
      apply Z.log2_lt_pow2; simpl; lia.
    - change 128 with (2 ^ 7). rewrite Z.pow2_bits_false by lia.
      reflexivity. }
  assert (E : Z.lor MSG_ID_PREFIX id = 128 + id).
  { unfold MSG_ID_PREFIX.
    rewrite <- (Z.lxor_lor _ _ D), <- (Z.add_nocarry_lxor _ _ D).
    reflexivity. }
  rewrite E. unfold uint8.
  rewrite Z.mod_small by lia.
  split; [reflexivity | split].
  - rewrite Z.shiftr_div_pow2 by lia. change (2 ^ 7) with 128.
    Z.to_euclidean_division_equations; lia.
  - change 0x7F with (Z.ones 7). rewrite Z.land_ones by lia.
    change (2 ^ 7) with 128. Z.to_euclidean_division_equations; lia.
Qed.

(** What [host_connect] sends on a link that opens. *)
Lemma host_connect_sends (l : link) (s : fw) :
  link_opens l ->
  effects (host_connect l s) =
    [send MSG_VERSION (version_ret l);
     send (uint8 (Z.lor MSG_ID_PREFIX (Gpio.read_module_id (id_level l))))
          (id_ret l)] /\
  result (host_connect l s) = negb (id_ret l <? 0).
Proof.
  intros (Hs & Hc & Hv).
  assert (E1 : (socket_ret l <? 0) = false) by (apply Z.ltb_ge; lia).
  assert (E2 : (version_ret l <? 0) = false) by (apply Z.ltb_ge; lia).
  assert (Ho : forall b r,
             host_send b r (set_host_socket (socket_ret l) s) =
               (negb (r <? 0),
                if r <? 0 then set_host_socket 0 (set_host_socket (socket_ret l) s)
                else set_host_socket (socket_ret l) s,
                [send (uint8 b) r]))
    by (intros b r; apply host_send_open; cbn [set_host_socket _host_socket]; lia).
  unfold host_connect. rewrite E1, Hc.
  change (negb (0 =? 0)) with false. cbv iota.
  cbv beta iota zeta delta [bind modify effects result].
  rewrite Ho, E2. cbv beta iota delta [negb]. rewrite Ho.
  destruct (id_ret l <? 0); cbv beta iota delta [negb ret app snd fst];
    split; reflexivity.
Qed.

Lemma good_link_opens (level : Z -> bool) : link_opens (good_link level).
Proof. unfold link_opens, good_link; cbn; lia. Qed.

(** C6, as the design text words it, fails: with every ID pin low the ID
    message is 0x80, with pin 25 alone high it is 0xC0, so the two high bits
    are not a fixed prefix; and the six low bits of 0xC0 are 0 while the
    module ID is 64. *)
Lemma id_message_not_two_six :
  ~ id_message_two_six /\
  sent_bytes (effects (host_connect (good_link (fun _ => false)) boot)) =
    [0x04; 0x80] /\
  sent_bytes (effects (host_connect (good_link (fun p => p =? 25)) boot)) =
    [0x04; 0xC0] /\
  Gpio.read_module_id (fun p => p =? 25) = 64.
Proof.
  split; [ | repeat split; reflexivity].
  intros [prefix H].
  destruct (H (good_link (fun _ => false)) boot (good_link_opens _))
    as (b0 & E0 & P0 & _).
  destruct (H (good_link (fun p => p =? 25)) boot (good_link_opens _))
    as (b1 & E1 & P1 & _).
  vm_compute in E0. vm_compute in E1.
  injection E0 as <-. injection E1 as <-.
  vm_compute in P0. vm_compute in P1. congruence.
Qed.

(** C6, amended: on every link that opens, [host_connect] sends the version
    message and then one ID message whose high bit is the fixed prefix 1 and
    whose seven low bits are the module ID; the module ID is the big-endian
    concatenation of the seven ID pins read by [read_module_id]. *)
Theorem id_message_one_seven (l : link) (s : fw) :
  link_opens l ->
  exists b : Z,
    sent_bytes (effects (host_connect l s)) = [MSG_VERSION; b] /\
    Z.shiftr b 7 = 1 /\
    Z.land b 0x7F = Gpio.read_module_id (id_level l) /\
    Gpio.read_module_id (id_level l) =
      big_endian (map (id_level l) Gpio._id_pins) /\
    0 <= Gpio.read_module_id (id_level l) < 128.
Proof.
  intros Ho.
  destruct (host_connect_sends l s Ho) as [E _].
  destruct (read_module_id_big_endian (id_level l)) as (Hb & _ & Hr).
  destruct (id_byte_layout _ Hr) as (_ & Hh & Hl).
  eexists. rewrite E. cbn [sent_bytes].
  split; [reflexivity | ]. split; [exact Hh | ]. split; [exact Hl | ].
  split; [exact Hb | exact Hr].
Qed.

Lemma id_message_one_seven_witness :
  exists b : Z,
    sent_bytes
      (effects (host_connect (good_link (fun p => (p =? 25) || (p =? 5))) boot)) =
      [MSG_VERSION; b] /\
    Z.shiftr b 7 = 1 /\
    Z.land b 0x7F = Gpio.read_module_id (fun p => (p =? 25) || (p =? 5)) /\
    Gpio.read_module_id (fun p => (p =? 25) || (p =? 5)) =
      big_endian (map (fun p => (p =? 25) || (p =? 5)) Gpio._id_pins) /\
    0 <= Gpio.read_module_id (fun p => (p =? 25) || (p =? 5)) < 128.
Proof.
  apply (id_message_one_seven (good_link (fun p => (p =? 25) || (p =? 5))) boot).
  unfold link_opens; cbn; lia.
Defined.

(** ** state.c: the button *)

Lemma presses_app (es1 es2 : list effect) :
  presses (es1 ++ es2) = (presses es1 + presses es2)%nat.
Proof.
  induction es1 as [| e es1 IH]; [reflexivity | ].
  destruct e; cbn [app presses]; rewrite IH; reflexivity.
Qed.

(** One sample: a press is reported exactly when the pin is low, the last
    sample was not pressed, and [_connected] is set; the sample is remembered
    and [_connected] is left alone. *)
Lemma check_button_spec (level : bool) (r : Z) (s : fw) :
  presses (effects (check_button level r s)) =
    (if negb level && negb (State._button_pressed (state s))
        && State._connected (state s)
     then 1%nat else 0%nat) /\
  State._button_pressed (state (final (check_button level r s))) = negb level /\
  State._connected (state (final (check_button level r s))) =
    State._connected (state s).
Proof.
  destruct s as [a [c l p f ph] k w d].
  unfold check_button, host_send_press, host_send, set_button_pressed.
  unfold_m. cbn [state State._button_pressed State._connected _host_socket].
  destruct level, p, c; cbn;
    try (repeat split; reflexivity);
    destruct (k =? 0); cbn; try (repeat split; reflexivity);
    destruct (r <? 0); cbn; repeat split; reflexivity.
Qed.

Lemma button_poll_task_cons (level : bool) (r : Z) (rest : list (bool * Z)) (s : fw) :
  button_poll_task ((level, r) :: rest) s =
    (tt,
     final (button_poll_task rest (final (check_button level r s))),
     effects (check_button level r s) ++
     effects (button_poll_task rest (final (check_button level r s)))).
Proof.
  cbn [button_poll_task]. unfold bind, final, effects.
  destruct (check_button level r s) as [[u s1] es1]. cbn [fst snd].
  destruct (button_poll_task rest s1) as [[u' s2] es2].
  destruct u'. reflexivity.
Qed.







(** ** state.c: the mode *)

(** [state_enable], written out. *)
Lemma state_enable_spec (led au : bool) (s : fw) :
  state_enable led au s =
    (tt,
     mkfw (if au then Audio.audio_start (audio s) else Audio.audio_stop (audio s))
          (State.mk (State._connected (state s)) led
             (State._button_pressed (state s)) false
             (State._flash_phase (state s)))
          (_host_socket s) (wifi s) (_timer_state_divide s),
     [gpio_set_level PIN_LED_BUTTON (if led then 1 else 0)]).
Proof.
  destruct s as [a [c l p f ph] k w d].
  unfold state_enable, set_led_on, set_status_flashing, audio_call.
  unfold_m. destruct au; reflexivity.
Qed.

(** Every function of state.c follows the design text's state machine, as
    far as [_connected] can tell. *)
Lemma perform_represents (t : transition) (c : ConnectivityState) (s : fw) :
  represents c s -> represents (fsm t c) (final (perform t s)).
Proof.
  unfold represents. intros H.
  destruct t as [| | led au]; cbn [perform fsm].
  - destruct s as [a [cn l p f ph] k w d]. cbn. split; reflexivity.
  - destruct s as [a [cn l p f ph] k w d]. cbn. split; discriminate.
  - rewrite state_enable_spec. unfold final; cbn [fst snd state State._connected].
    destruct c; split; intros E; try discriminate;
      try (apply H; exact E); try reflexivity;
      apply H in E; discriminate.
Qed.

(** C8: from any state with [_connected] set, [state_enable (true, true)]
    followed at once by [state_enable (false, false)] leaves the button LED
    off and a stop pending, so that the next audio tick ends with the counter
    at 0 and the transducer low; [_connected] stays set, which is ACTIVE and
    not DISCONNECTED in the design text's state machine; and [state_enable]
    never changes [_connected]. *)
Theorem enable_then_disable (s : fw) :
  State._connected (state s) = true ->
  let r := (state_enable true true ;; state_enable false false)%fw s in
  State._connected (state (final r)) = true /\
  (forall c : ConnectivityState,
     represents c s ->
     fsm (applyMode false false) (fsm (applyMode true true) c) = ACTIVE /\
     represents ACTIVE (final r)) /\
  State._led_on (state (final r)) = false /\
  levels_written PIN_LED_BUTTON (effects r) = [1; 0] /\
  Audio._audio_stop (audio (final r)) = true /\
  Audio.audio_tick (audio (final r)) =
    (Audio.mk false false 0, [gpio_set_level PIN_BUZZER 0]) /\
  (forall (led au : bool) (s' : fw),
     State._connected (state (final (state_enable led au s'))) =
       State._connected (state s')).
Proof.
  intros Hc r.
  assert (Er : r =
    (tt,
     mkfw (Audio.audio_stop (Audio.audio_start (audio s)))
          (State.mk (State._connected (state s)) false
             (State._button_pressed (state s)) false
             (State._flash_phase (state s)))
          (_host_socket s) (wifi s) (_timer_state_divide s),
     [gpio_set_level PIN_LED_BUTTON 1; gpio_set_level PIN_LED_BUTTON 0])).
  { subst r. unfold bind. rewrite !state_enable_spec. reflexivity. }
  rewrite Er. unfold final, effects; cbn [fst snd state audio State._connected State._led_on].
  split; [exact Hc | ].
  split.
  { intros c Hr. split.
    - destruct c; try reflexivity.
      destruct Hr as [Hr _]. specialize (Hr eq_refl). congruence.
    - unfold represents; cbn [state State._connected]. rewrite Hc.
      split; discriminate. }
  split; [reflexivity | ].
  split; [reflexivity | ].
  split; [reflexivity | ].
  split; [apply tick_stop_pending; reflexivity | ].
  intros led au s'. rewrite state_enable_spec. reflexivity.
Qed.

Lemma enable_then_disable_witness :
  State._connected
    (state (final ((state_enable true true ;; state_enable false false)%fw
                     (final (state_connected boot))))) = true /\
  Audio.audio_tick
    (audio (final ((state_enable true true ;; state_enable false false)%fw
                     (final (state_connected boot))))) =
    (Audio.mk false false 0, [gpio_set_level PIN_BUZZER 0]).
Proof.
  pose proof (enable_then_disable (final (state_connected boot)) eq_refl) as H.
  cbv zeta in H. split; [apply H | apply H].
Defined.

(** ** wifi.c *)

Section WifiConnect.

Import Wifi.

(** With a bit already set the wait returns at once, whatever the events. *)
Lemma wait_returns_at_once (bits : Z) (evs : list event) (s : vars) :
  Z.land (_wifi_event_signal s) bits <> 0 ->
  xEventGroupWaitBits bits evs s = Some (_wifi_event_signal s, s, []).
Proof.
  intros H. apply Z.eqb_neq in H.
  destruct evs; cbn [xEventGroupWaitBits]; rewrite H; reflexivity.
Qed.

(** From an event group with no bit set, a wait that returns has seen the
    handler set exactly one of the two bits. *)
Lemma wait_one_signal (evs : list event) (s : vars) (signal : Z) (s' : vars) (es : list effect) :
  _wifi_event_signal s = 0 ->
  xEventGroupWaitBits (Z.lor WIFI_CONNECTED WIFI_FAILED) evs s =
    Some (signal, s', es) ->
  _wifi_event_signal s' = signal /\
  ((signal = WIFI_CONNECTED /\
    In (xEventGroupSetBits WIFI_CONNECTED) es /\
    ~ In (xEventGroupSetBits WIFI_FAILED) es) \/
   (signal = WIFI_FAILED /\
    In (xEventGroupSetBits WIFI_FAILED) es /\
    ~ In (xEventGroupSetBits WIFI_CONNECTED) es)).
Proof.
  revert s signal s' es.
  induction evs as [| e evs IH]; intros [sg rt] signal s' es Hs H;
    cbn [_wifi_event_signal] in Hs; subst sg.
  - cbn in H. discriminate.
  - cbn [xEventGroupWaitBits _wifi_event_signal] in H.
    change (negb (Z.land 0 (Z.lor WIFI_CONNECTED WIFI_FAILED) =? 0)) with false in H.
    cbv iota in H.
    destruct e; cbn [event_handler _wifi_event_signal _wifi_connect_retries] in H.
    + destruct (xEventGroupWaitBits _ evs (mk 0 0)) as [[[sg1 s1] es1] | ] eqn:E;
        [ | discriminate].
      injection H as <- <- <-.
      apply IH in E; [ | reflexivity].
      destruct E as [H1 [(A & B & C) | (A & B & C)]].
      * split; [exact H1 | left].
        split; [exact A | split; [right; exact B | ]].
        intros [D | D]; [discriminate | exact (C D)].
      * split; [exact H1 | right].
        split; [exact A | split; [right; exact B | ]].
        intros [D | D]; [discriminate | exact (C D)].
    + destruct (WIFI_MAX_RETRIES <=? rt).
      * rewrite wait_returns_at_once in H by (cbn; discriminate).
        injection H as <- <- <-. cbn.
        split; [reflexivity | right].
        split; [reflexivity | split; [left; reflexivity | ]].
        intros [D | []]. discriminate.
      * destruct (xEventGroupWaitBits _ evs (mk 0 (rt + 1)))
          as [[[sg1 s1] es1] | ] eqn:E; [ | discriminate].
        injection H as <- <- <-.
        apply IH in E; [ | reflexivity].
      destruct E as [H1 [(A & B & C) | (A & B & C)]].
        -- split; [exact H1 | left].
           split; [exact A | split; [right; exact B | ]].
           intros [D | D]; [discriminate | exact (C D)].
        -- split; [exact H1 | right].
           split; [exact A | split; [right; exact B | ]].
           intros [D | D]; [discriminate | exact (C D)].
    + destruct (xEventGroupWaitBits _ evs (mk 0 rt)) as [[[sg1 s1] es1] | ] eqn:E;
        [ | discriminate].
      injection H as <- <- <-.
      apply IH in E; [ | reflexivity].
      destruct E as [H1 [(A & B & C) | (A & B & C)]].
      * split; [exact H1 | left]. split; [exact A | split; [exact B | exact C]].
      * split; [exact H1 | right]. split; [exact A | split; [exact B | exact C]].
    + rewrite wait_returns_at_once in H by (cbn; discriminate).
      injection H as <- <- <-. cbn.
      split; [reflexivity | left].
      split; [reflexivity | split; [left; reflexivity | ]].
      intros [D | []]. discriminate.
Qed.

(** Events that come after the wait has returned are not looked at. *)
Lemma wait_more_events (bits : Z) (evs rest : list event) (s : vars)
    (r : Z * vars * list effect) :
  xEventGroupWaitBits bits evs s = Some r ->
  xEventGroupWaitBits bits (evs ++ rest) s = Some r.
Proof.
  revert s r. induction evs as [| e evs IH]; intros s r H.
  - cbn [xEventGroupWaitBits] in H.
    destruct (Z.land (_wifi_event_signal s) bits =? 0) eqn:E; [discriminate | ].
    cbn [negb] in H. injection H as <-.
    apply wait_returns_at_once. apply Z.eqb_neq. exact E.
  - cbn [app xEventGroupWaitBits] in *.
    destruct (negb (Z.land (_wifi_event_signal s) bits =? 0)); [exact H | ].
    destruct (event_handler e s) as [s1 es1].
    destruct (xEventGroupWaitBits bits evs s1) as [[[sg s2] es2] | ] eqn:E;
      [ | discriminate].
    rewrite (IH _ _ E). exact H.
Qed.

Lemma connect_more_events (evs rest : list event) (s : vars)
    (r : bool * vars * list effect) :
  wifi_connect evs s = Some r -> wifi_connect (evs ++ rest) s = Some r.
Proof.
  unfold wifi_connect. intros H.
  destruct (xEventGroupWaitBits _ evs s) as [[[sg s2] es2] | ] eqn:E;
    [ | discriminate].
  rewrite (wait_more_events _ _ rest _ _ E). exact H.
Qed.

(** C4: [wifi_connect] at an input where it departs from the design text.
    The wait does not clear the bits on exit and nothing in wifi.c clears
    the event group, so a signal raised during one call is still raised when
    the next call starts.  The first call below starts from a retry count of
    0 and connects without a retry.  The second starts from a retry count of
    0 again and is offered seven disconnections in a row: it returns success
    at once, with no event handled, no retry made and FAILED not raised. *)
Lemma connect_again_returns_old_signal :
  ~ connect_as_stated /\
  wifi_connect [WIFI_EVENT_STA_START; IP_EVENT_STA_GOT_IP] (wifi boot) =
    Some (true, mk WIFI_CONNECTED 0,
          [esp_wifi_start; esp_wifi_connect; xEventGroupSetBits WIFI_CONNECTED]) /\
  wifi_connect (WIFI_EVENT_STA_START :: repeat WIFI_EVENT_STA_DISCONNECTED 7)
    (mk WIFI_CONNECTED 0) =
    Some (true, mk WIFI_CONNECTED 0, [esp_wifi_start]).
Proof.
  split; [ | split; reflexivity].
  intros H.
  destruct (H (mk WIFI_CONNECTED 0) [] eq_refl) as [(s' & es & E & _) _].
  vm_compute in E. discriminate.
Qed.

(** Once a call has failed, FAILED stays raised: the next call returns
    failure at once, whatever the network then does. *)
Example connect_after_failure :
  wifi_connect (WIFI_EVENT_STA_START :: repeat WIFI_EVENT_STA_DISCONNECTED 7)
    (wifi boot) =
    Some (false, mk WIFI_FAILED 6,
          esp_wifi_start :: esp_wifi_connect :: repeat esp_wifi_connect 6
            ++ [xEventGroupSetBits WIFI_FAILED]) /\
  wifi_connect [WIFI_EVENT_STA_START; IP_EVENT_STA_GOT_IP] (mk WIFI_FAILED 6) =
    Some (false, mk WIFI_FAILED 6, [esp_wifi_start]).
Proof. split; reflexivity. Qed.

End WifiConnect.

(** ** host.c: the receive loop *)

Lemma bind_run {A B : Type} (m : M A) (k : A -> M B) (s : fw) :
  final (bind m k s) = final (k (result (m s)) (final (m s))) /\
  effects (bind m k s) =
    effects (m s) ++ effects (k (result (m s)) (final (m s))) /\
  result (bind m k s) = result (k (result (m s)) (final (m s))).
Proof.
  unfold bind, final, effects, result.
  destruct (m s) as [[a s1] es1]. cbn [fst snd].
  destruct (k a s1) as [[b s2] es2]. repeat split.
Qed.

Lemma sent_bytes_app (es1 es2 : list effect) :
  sent_bytes (es1 ++ es2) = sent_bytes es1 ++ sent_bytes es2.
Proof.
  induction es1 as [| e es1 IH]; [reflexivity | ].
  destruct e; cbn [app sent_bytes]; rewrite IH; reflexivity.
Qed.












Lemma host_process_messages_closed (turns : list turn) (s : fw) :
  _host_socket s = 0 -> host_process_messages turns s = Some (s, []).
Proof.
  intros H. destruct turns; cbn [host_process_messages]; rewrite H; reflexivity.
Qed.

Lemma host_process_messages_open (t : turn) (rest : list turn) (s : fw) :
  _host_socket s <> 0 ->
  host_process_messages (t :: rest) s =
    match host_process_messages rest (final (process_message t s)) with
    | Some (s2, es2) => Some (s2, effects (process_message t s) ++ es2)
    | None => None
    end.
Proof.
  intros H. cbn [host_process_messages].
  apply Z.eqb_neq in H. rewrite H.
  unfold final, effects.
  destruct (process_message t s) as [[u s1] es1]. reflexivity.
Qed.

(** The loop returns only with the socket marked invalid. *)
Lemma returns_with_socket_invalid (turns : list turn) (s s' : fw) (es : list effect) :
  host_process_messages turns s = Some (s', es) -> _host_socket s' = 0.
Proof.
  revert s es. induction turns as [| t rest IH]; intros s es H.
  - cbn in H. destruct (Z.eqb_spec (_host_socket s) 0) as [E | E];
      [ | discriminate].
    injection H as <- <-. exact E.
  - destruct (Z.eq_dec (_host_socket s) 0) as [E | E].
    + rewrite (host_process_messages_closed _ _ E) in H.
      injection H as <- <-. exact E.
    + rewrite (host_process_messages_open _ _ _ E) in H.
      destruct (host_process_messages rest _) as [[s2 es2] | ] eqn:E2;
        [ | discriminate].
      injection H as <- <-. apply (IH _ _ E2).
Qed.



(** A turn in which the other tasks lose the socket and the byte is no mode
    message does what the other tasks do, and no more: the error reply is
    dropped. *)
Lemma late_step_is_a_turn (os : list other) (r rr : Z) (s : fw) :
  _host_socket (final (other_tasks os s)) = 0 ->
  process_message (mkturn os r 0x01 rr) s = other_tasks os s.
Proof.
  intros H. unfold process_message. cbn [meanwhile msg reply_ret].
  change (Z.land (uint8 1) MSG_MODE_MASK =? MSG_MODE_PREFIX) with false.
  cbv iota. unfold bind, ret, final in *.
  destruct (other_tasks os s) as [[[] s1] es1]. cbn [fst snd] in H.
  rewrite (host_send_closed _ _ _ H). rewrite app_nil_r. reflexivity.
Qed.






(** The session of the witness, run: the first turn's read fails with the
    mode byte 0x23 in the buffer, a heartbeat and a press go out; in the
    second turn the button is released and pressed again, the [send] of that
    press fails, and the loop returns. *)
Example session_ended_by_a_press :
  option_map (fun r => sent_bytes (snd r))
    (host_process_messages
       [mkturn [heartbeat 1; sample false 1] 0 0x23 1;
        mkturn [sample true 1; sample false (-1)] 1 0x23 1] open_session) =
    Some [MSG_HEARTBEAT; MSG_PRESS; MSG_PRESS] /\
  host_process_messages
    [mkturn [heartbeat 1; sample false 1] 0 0x23 1] open_session = None.
Proof. split; vm_compute; reflexivity. Qed.

(** ** main.c: the main loop *)

Lemma delays_app (es1 es2 : list effect) :
  delays (es1 ++ es2) = delays es1 ++ delays es2.
Proof.
  induction es1 as [| e es1 IH]; [reflexivity | ].
  destruct e; cbn [app delays]; rewrite IH; reflexivity.
Qed.

Lemma keeps_ret {A : Type} (a : A) : keeps (ret a).
Proof. intros s. split; reflexivity. Qed.

Lemma keeps_bind {A B : Type} (m : M A) (k : A -> M B) :
  keeps m -> (forall a, keeps (k a)) -> keeps (bind m k).
Proof.
  unfold keeps. intros Hm Hk s. unfold bind, final, effects in *.
  specialize (Hm s). destruct (m s) as [[a s1] es1]. cbn [fst snd] in Hm.
  specialize (Hk a s1). destruct (k a s1) as [[b s2] es2]. cbn [fst snd] in *.
  rewrite delays_app. destruct Hm as [-> <-], Hk as [-> <-].
  split; reflexivity.
Qed.

Lemma keeps_gets {A : Type} (f : fw -> A) : keeps (gets f).
Proof. intros s. split; reflexivity. Qed.

Lemma keeps_modify (f : fw -> fw) :
  (forall s, State._connected (state (f s)) = State._connected (state s)) ->
  keeps (modify f).
Proof. intros H s. split; [reflexivity | apply H]. Qed.

Lemma keeps_emit (e : effect) : delays [e] = [] -> keeps (emit e).
Proof. intros H s. split; [exact H | reflexivity]. Qed.

Lemma keeps_host_send (b r : Z) : keeps (host_send b r).
Proof.
  unfold host_send.
  apply keeps_bind; [apply keeps_gets | intros sock].
  destruct (sock =? 0); [apply keeps_ret | ].
  apply keeps_bind; [apply keeps_emit; reflexivity | intros _].
  destruct (r <? 0); [ | apply keeps_ret].
  apply keeps_bind; [ | intros _; apply keeps_ret].
  apply keeps_modify. reflexivity.
Qed.

Lemma keeps_check_button (level : bool) (r : Z) : keeps (check_button level r).
Proof.
  unfold check_button.
  apply keeps_bind; [apply keeps_gets | intros pressed].
  apply keeps_bind; [apply keeps_gets | intros connected].
  apply keeps_bind; [ | intros _].
  { destruct (_ && _); [ | apply keeps_ret].
    unfold host_send_press.
    apply keeps_bind; [apply keeps_emit; reflexivity | intros _].
    apply keeps_bind; [apply keeps_host_send | intros _; apply keeps_ret]. }
  apply keeps_bind; [apply keeps_modify; reflexivity | intros _].
  destruct (Z.b2z level =? 0); apply keeps_emit; reflexivity.
Qed.

Lemma keeps_other_tasks (os : list other) : keeps (other_tasks os).
Proof.
  induction os as [| o os IH]; [apply keeps_ret | ].
  cbn [other_tasks]. apply keeps_bind; [ | intros _; exact IH].
  destruct o as [r | level r]; cbn [other_task].
  - apply keeps_bind; [apply keeps_host_send | intros _; apply keeps_ret].
  - apply keeps_check_button.
Qed.

Lemma keeps_state_enable (led au : bool) : keeps (state_enable led au).
Proof.
  intros s. rewrite state_enable_spec. split; reflexivity.
Qed.

Lemma keeps_process_message (t : turn) : keeps (process_message t).
Proof.
  unfold process_message.
  apply keeps_bind; [apply keeps_other_tasks | intros _].
  destruct (Z.land (uint8 (msg t)) MSG_MODE_MASK =? MSG_MODE_PREFIX).
  - apply keeps_state_enable.
  - apply keeps_bind; [apply keeps_host_send | intros _; apply keeps_ret].
Qed.

Lemma keeps_host_connect (l : link) : keeps (host_connect l).
Proof.
  unfold host_connect.
  destruct (socket_ret l <? 0).
  { apply keeps_bind; [apply keeps_modify; reflexivity | intros _; apply keeps_ret]. }
  destruct (negb (connect_ret l =? 0)).
  { apply keeps_bind; [apply keeps_emit; reflexivity | intros _].
    apply keeps_bind; [apply keeps_modify; reflexivity | intros _; apply keeps_ret]. }
  apply keeps_bind; [apply keeps_modify; reflexivity | intros _].
  apply keeps_bind; [apply keeps_host_send | intros sent].
  destruct (negb sent); [apply keeps_ret | ].
  apply keeps_bind; [apply keeps_host_send | intros sent'].
  destruct (negb sent'); apply keeps_ret.
Qed.

(** The receive loop never delays and never touches [_connected]. *)
Lemma host_process_messages_keeps (turns : list turn) (s s' : fw) (es : list effect) :
  host_process_messages turns s = Some (s', es) ->
  delays es = [] /\
  State._connected (state s') = State._connected (state s).
Proof.
  revert s es. induction turns as [| t rest IH]; intros s es H.
  - cbn in H. destruct (_host_socket s =? 0); [ | discriminate].
    injection H as <- <-. split; reflexivity.
  - cbn [host_process_messages] in H.
    destruct (_host_socket s =? 0).
    + injection H as <- <-. split; reflexivity.
    + pose proof (keeps_process_message t s) as [Hd Hc].
      unfold final, effects in Hd, Hc.
      destruct (process_message t s) as [[u s1] es1]. cbn [fst snd] in Hd, Hc.
      destruct (host_process_messages rest s1) as [[s2 es2] | ] eqn:E;
        [ | discriminate].
      injection H as <- <-.
      destruct (IH _ _ E) as [Hd' Hc'].
      rewrite delays_app, Hd, Hd', Hc', Hc. split; reflexivity.
Qed.

(** The WIFI connection never delays. *)
Lemma wait_no_delay (bits : Z) (evs : list Wifi.event) (w : Wifi.vars)
    (r : Z * Wifi.vars * list effect) :
  Wifi.xEventGroupWaitBits bits evs w = Some r -> delays (snd r) = [].
Proof.
  revert w r. induction evs as [| e evs IH]; intros w r H;
    cbn [Wifi.xEventGroupWaitBits] in H;
    destruct (negb (Z.land (Wifi._wifi_event_signal w) bits =? 0));
    try discriminate; try (injection H as <-; reflexivity).
  destruct (Wifi.event_handler e w) as [w1 es1] eqn:Eh.
  destruct (Wifi.xEventGroupWaitBits bits evs w1) as [[[sg w2] es2] | ] eqn:E;
    [ | discriminate].
  injection H as <-. cbn [snd].
  rewrite delays_app, (IH _ _ E : delays es2 = []), app_nil_r.
  destruct e; cbn in Eh.
  - injection Eh as <- <-. reflexivity.
  - destruct (Wifi.WIFI_MAX_RETRIES <=? Wifi._wifi_connect_retries w);
      injection Eh as <- <-; reflexivity.
  - injection Eh as <- <-. reflexivity.
  - injection Eh as <- <-. reflexivity.
Qed.

Lemma wifi_connect_no_delay (evs : list Wifi.event) (w w' : Wifi.vars)
    (up : bool) (es : list effect) :
  Wifi.wifi_connect evs w = Some (up, w', es) -> delays es = [].
Proof.
  unfold Wifi.wifi_connect. intros H.
  destruct (Wifi.xEventGroupWaitBits _ evs w) as [[[sg w2] es2] | ] eqn:E;
    [ | discriminate].
  injection H as <- <- <-. cbn [delays].
  apply (wait_no_delay _ _ _ _ E).
Qed.

Lemma state_connect_spec (s : fw) :
  state_connect s =
    (tt,
     mkfw (Audio.audio_stop (audio s))
          (State.mk false false (State._button_pressed (state s)) true
             (State._flash_phase (state s)))
          (_host_socket s) (wifi s) (_timer_state_divide s),
     [gpio_set_level PIN_LED_BUTTON 0]).
Proof. destruct s as [a [c l p f ph] k w d]. reflexivity. Qed.

Lemma state_connected_spec (s : fw) :
  state_connected s =
    (tt,
     mkfw (Audio.audio_stop (audio s))
          (State.mk true false (State._button_pressed (state s)) false
             (State._flash_phase (state s)))
          (_host_socket s) (wifi s) (_timer_state_divide s),
     [gpio_set_level PIN_LED_BUTTON 0]).
Proof. destruct s as [a [c l p f ph] k w d]. reflexivity. Qed.

(** [host_connect], written out by cases. *)
Lemma host_connect_eq (l : link) (s : fw) :
  host_connect l s =
    if socket_ret l <? 0 then (false, set_host_socket 0 s, [])
    else if negb (connect_ret l =? 0)
    then (false, set_host_socket 0 s, [close (socket_ret l)])
    else if socket_ret l =? 0 then (false, set_host_socket 0 s, [])
    else if version_ret l <? 0
    then (false, set_host_socket 0 s, [send MSG_VERSION (version_ret l)])
    else
      (negb (id_ret l <? 0),
       set_host_socket (if id_ret l <? 0 then 0 else socket_ret l) s,
       [send MSG_VERSION (version_ret l);
        send (uint8 (Z.lor MSG_ID_PREFIX (Gpio.read_module_id (id_level l))))
             (id_ret l)]).
Proof.
  unfold host_connect.
  destruct (socket_ret l <? 0); [destruct s; reflexivity | ].
  destruct (negb (connect_ret l =? 0)); [destruct s; reflexivity | ].
  cbv beta iota zeta delta [bind modify].
  destruct (Z.eqb_spec (socket_ret l) 0) as [E | E].
  - rewrite host_send_closed by (destruct s; exact E).
    rewrite E. destruct s; reflexivity.
  - rewrite host_send_open by (destruct s; exact E).
    destruct (version_ret l <? 0); cbv beta iota delta [negb];
      [destruct s; reflexivity | ].
    rewrite host_send_open by (destruct s; exact E).
    destruct (id_ret l <? 0); destruct s; reflexivity.
Qed.








(** What a call of [run] that returns has done: it never delays; it returns
    true exactly when the session opened, and then [_connected] is set and
    the socket is marked invalid again; it returns false exactly when the
    WIFI connection or the opening of the session failed, and then
    [_connected] is clear.  Either way it started with [state_connect] and
    [esp_wifi_start]. *)
Lemma run_outcome (a : attempt) (s s' : fw) (r : bool) (es : list effect) :
  run a s = Some (r, s', es) ->
  delays es = [] /\
  State._connected (state s') = r /\
  (r = true -> _host_socket s' = 0) /\
  (r = true <-> session_opened a s = Some true) /\
  (r = false <->
   wifi_came_up a s = Some false \/ session_opened a s = Some false) /\
  exists tail, es = gpio_set_level PIN_LED_BUTTON 0 :: esp_wifi_start :: tail.
Proof.
  unfold run, wifi_came_up, session_opened.
  rewrite state_connect_spec. unfold final. cbn [fst snd].
  set (s1 := mkfw _ _ _ _ _). cbv iota.
  destruct (Wifi.wifi_connect (wifi_events a) (wifi s1))
    as [[[up w] es2] | ] eqn:Ew; [ | discriminate].
  pose proof (wifi_connect_no_delay _ _ _ _ _ Ew) as Hd2.
  assert (Hst : exists tl, es2 = esp_wifi_start :: tl).
  { unfold Wifi.wifi_connect in Ew.
    destruct (Wifi.xEventGroupWaitBits _ _ _) as [[[sg w2] es'] | ];
      [ | discriminate].
    injection Ew as _ _ <-. eexists; reflexivity. }
  destruct Hst as [tl ->].
  destruct up; cbn [negb].
  - pose proof (keeps_host_connect (host_link a) (set_wifi w s1)) as [Hd3 Hc3].
    unfold final, effects, result in *.
    destruct (host_connect (host_link a) (set_wifi w s1)) as [[opened s3] es3].
    cbn [fst snd] in *.
    destruct opened; cbn [negb].
    + rewrite state_connected_spec. cbv iota.
      set (s4 := mkfw _ _ _ _ _).
      destruct (host_process_messages (session a) s4) as [[s5 es5] | ] eqn:Ep;
        [ | discriminate].
      intros H. injection H as <- <- <-.
      destruct (host_process_messages_keeps _ _ _ _ Ep) as [Hd5 Hc5].
      cbn [delays app] in *. rewrite ?delays_app. cbn [delays app].
      rewrite Hd2, Hd3, Hd5.
      split; [reflexivity | ]. split; [exact Hc5 | ].
      split; [intros _; apply (returns_with_socket_invalid _ _ _ _ Ep) | ].
      split; [split; reflexivity | ].
      split; [split; [discriminate | intros [D | D]; discriminate] | ].
      eexists; reflexivity.
    + intros H. injection H as <- <- <-.
      cbn [delays app] in *. rewrite ?delays_app. cbn [delays app].
      rewrite Hd2, Hd3.
      split; [reflexivity | ]. split; [exact Hc3 | ].
      split; [discriminate | ].
      split; [split; discriminate | ].
      split; [split; [right; reflexivity | reflexivity] | ].
      eexists; reflexivity.
  - intros H. injection H as <- <- <-.
    cbn [delays app] in *. rewrite ?delays_app. cbn [delays app].
      rewrite ?Hd2.
    split; [reflexivity | ]. split; [reflexivity | ].
    split; [discriminate | ].
    split; [split; discriminate | ].
    split; [split; [left; reflexivity | reflexivity] | ].
    eexists; reflexivity.
Qed.




(** The two example attempts, run: the first delays 200 ticks of 10 ms and
    leaves [_connected] clear; the second does not delay. *)
Example main_loop_examples :
  delays (snd after_no_wifi) = [200] /\
  State._connected (state (fst after_no_wifi)) = false /\
  option_map (fun r => delays (snd r))
    (main_loop_body 10 attempt_session_lost boot) = Some [] /\
  option_map (fun r => delays (snd r))
    (main_loop 10 [attempt_session_lost; attempt_session_lost] boot) =
    Some [].
Proof. repeat split; vm_compute; reflexivity. Qed.

(** * Further properties of the code *)

(** ** audio.c: a whole playback, and bursts of requests *)

Section AudioPlayback.

Import Audio.

Lemma run_written_tick (cs : list call) (s : vars) :
  run_written (Tick :: cs) s =
    snd (Audio.audio_tick s) ++ run_written cs (fst (Audio.audio_tick s)).
Proof. reflexivity. Qed.

(** Ticks alone, from a counter [c] with no request pending: the counter
    goes down to 0 and stays there, and each tick that found it positive
    wrote once. *)
Lemma countdown (n : nat) (c : Z) :
  0 <= c ->
  run (repeat Tick n) (mk false false c) =
    mk false false (Z.max 0 (c - Z.of_nat n)) /\
  length (run_written (repeat Tick n) (mk false false c)) =
    Z.to_nat (Z.min (Z.of_nat n) c).
Proof.
  revert c. induction n as [| n IH]; intros c Hc.
  - cbn [repeat run]. split; [f_equal; lia | cbn; lia].
  - cbn [repeat run step]. rewrite run_written_tick.
    destruct (Z.ltb_spec 0 c) as [Hp | Hz].
    + rewrite (tick_playing (mk false false c) eq_refl Hp).
      cbn [fst snd _audio_count app length].
      destruct (IH (c - 1) ltac:(lia)) as [Hr Hw].
      rewrite Hr, Hw. split; [f_equal; lia | lia].
    + rewrite (tick_idle (mk false false c) eq_refl eq_refl Hz).
      cbn [fst snd app].
      destruct (IH c Hc) as [Hr Hw].
      rewrite Hr, Hw. split; [f_equal; lia | lia].
Qed.

(** X1: a start request found at idle plays for exactly 1000 ticks: after
    k ticks (k from 1 to 1000) the counter is 1000 - k, from then on it is 0,
    and the ticks have written to the transducer min (k, 1000) times. *)
Theorem playback_lasts_1000_ticks (s : vars) (n : nat) :
  _audio_stop s = false -> _audio_start s = true -> _audio_count s = 0 ->
  run (repeat Tick (S n)) s = mk false false (Z.max 0 (999 - Z.of_nat n)) /\
  length (run_written (repeat Tick (S n)) s) = Nat.min (S n) 1000.
Proof.
  intros Hsp Hst Hc.
  cbn [repeat run step]. rewrite run_written_tick.
  rewrite (tick_start_idle s Hsp Hst Hc). cbn [fst snd app length].
  destruct (countdown n 999 ltac:(lia)) as [Hr Hw].
  rewrite Hr, Hw. split; [reflexivity | lia].
Qed.

Lemma playback_lasts_1000_ticks_witness :
  run (repeat Tick 1000) (audio_start audio_init) = mk false false 0 /\
  length (run_written (repeat Tick 1000) (audio_start audio_init)) = 1000%nat.
Proof.
  apply (playback_lasts_1000_ticks (audio_start audio_init) 999);
    reflexivity.
Defined.

(** X2: requests that no tick has consumed yet collapse: any burst of start
    and stop calls leaves the counter alone, writes nothing, and leaves each
    flag set exactly when it was set before or the burst holds such a
    call, however many and in whatever order. *)
Theorem requests_collapse (cs : list call) (s : vars) :
  Forall (fun c => c <> Tick) cs ->
  run cs s =
    mk (_audio_start s || existsb is_start cs)
       (_audio_stop s || existsb is_stop cs)
       (_audio_count s) /\
  run_written cs s = [].
Proof.
  revert s. induction cs as [| c cs IH]; intros s H.
  - cbn. rewrite !orb_false_r. destruct s; split; reflexivity.
  - inversion H as [| ? ? Hc Hcs]; subst.
    destruct c; [ | | congruence].
    + destruct (IH (audio_start s) Hcs) as [Hr Hw].
      cbn [run step fst existsb is_start is_stop]. rewrite Hr.
      cbn [audio_start _audio_start _audio_stop _audio_count orb].
      rewrite orb_true_r. split; [reflexivity | exact Hw].
    + destruct (IH (audio_stop s) Hcs) as [Hr Hw].
      cbn [run step fst existsb is_start is_stop]. rewrite Hr.
      cbn [audio_stop _audio_start _audio_stop _audio_count orb].
      rewrite orb_true_r. split; [reflexivity | exact Hw].
Qed.

Lemma requests_collapse_witness :
  run [Start; Start; Stop; Start] audio_init = mk true true 0 /\
  run_written [Start; Start; Stop; Start] audio_init = [].
Proof.
  apply (requests_collapse [Start; Start; Stop; Start] audio_init).
  repeat constructor; discriminate.
Defined.

End AudioPlayback.

(** ** state.c and main.c: the status LED and the interrupt *)

Lemma levels_written_app (pin : Z) (es1 es2 : list effect) :
  levels_written pin (es1 ++ es2) =
    levels_written pin es1 ++ levels_written pin es2.
Proof.
  induction es1 as [| e es1 IH]; [reflexivity | ].
  destruct e; cbn [app levels_written]; rewrite ?IH; try reflexivity.
  destruct (pin0 =? pin); rewrite ?IH; reflexivity.
Qed.

(** [state_tick], written out. *)
Lemma state_tick_spec (s : fw) :
  state_tick s =
    (tt,
     mkfw (audio s)
          (State.mk (State._connected (state s)) (State._led_on (state s))
             (State._button_pressed (state s))
             (State._status_flashing (state s))
             (if State._status_flashing (state s)
              then 1 - State._flash_phase (state s) else 1))
          (_host_socket s) (wifi s) (_timer_state_divide s),
     [gpio_set_level PIN_LED_STATUS
        (if State._status_flashing (state s)
         then 1 - State._flash_phase (state s) else 1)]).
Proof.
  destruct s as [a [c l p f ph] k w d].
  unfold state_tick, set_flash_phase. unfold_m.
  destruct f; reflexivity.
Qed.

Lemma state_ticks_levels (n : nat) (s : fw) :
  levels_written PIN_LED_STATUS (effects (times n state_tick s)) =
    if State._status_flashing (state s)
    then blink n (State._flash_phase (state s))
    else repeat 1 n.
Proof.
  revert s. induction n as [| n IH]; intros s.
  - destruct (State._status_flashing (state s)); reflexivity.
  - cbn [times]. destruct (bind_run state_tick (fun _ => times n state_tick) s)
      as (_ & -> & _).
    rewrite levels_written_app, IH, state_tick_spec.
    unfold final, effects, result.
    cbn [fst snd state State._status_flashing State._flash_phase levels_written].
    change (PIN_LED_STATUS =? PIN_LED_STATUS) with true. cbv iota.
    destruct (State._status_flashing (state s)); reflexivity.
Qed.

(** X3: the status LED, tick by tick.  While [_status_flashing] is set each
    [state_tick] writes the opposite of the level before; while it is clear
    each writes high.  So after [state_connect] the LED blinks, and after
    [state_connected] or [state_enable] it is held high, whatever the mode
    that was asked for. *)
Theorem status_led_blinks_or_holds (n : nat) (s : fw) :
  levels_written PIN_LED_STATUS (effects (times n state_tick s)) =
    (if State._status_flashing (state s)
     then blink n (State._flash_phase (state s))
     else repeat 1 n) /\
  levels_written PIN_LED_STATUS
    (effects (times n state_tick (final (state_connect s)))) =
    blink n (State._flash_phase (state s)) /\
  levels_written PIN_LED_STATUS
    (effects (times n state_tick (final (state_connected s)))) = repeat 1 n /\
  (forall led au : bool,
     levels_written PIN_LED_STATUS
       (effects (times n state_tick (final (state_enable led au s)))) =
       repeat 1 n).
Proof.
  split; [apply state_ticks_levels | ].
  split; [rewrite state_ticks_levels, state_connect_spec; reflexivity | ].
  split; [rewrite state_ticks_levels, state_connected_spec; reflexivity | ].
  intros led au. rewrite state_ticks_levels, state_enable_spec. reflexivity.
Qed.

(** [audio_isr], written out: the audio tick every time, and every 125th
    time the state tick and the divider back to 0. *)
Lemma audio_isr_spec (s : fw) :
  audio_isr s =
    let a := fst (Audio.audio_tick (audio s)) in
    let ea := snd (Audio.audio_tick (audio s)) in
    if 125 <=? _timer_state_divide s + 1
    then
      (tt,
       set_timer_state_divide 0
         (final (state_tick (set_timer_state_divide (_timer_state_divide s + 1)
                               (set_audio a s)))),
       ea ++ effects (state_tick (set_timer_state_divide (_timer_state_divide s + 1)
                                    (set_audio a s))))
    else
      (tt, set_timer_state_divide (_timer_state_divide s + 1) (set_audio a s),
       ea).
Proof.
  destruct s as [a st k w d].
  unfold audio_isr, audio_tick. unfold_m.
  cbn [audio _timer_state_divide set_audio set_timer_state_divide state
         _host_socket wifi].
  destruct (Audio.audio_tick a) as [a' ea].
  cbn [fst snd audio _timer_state_divide set_audio set_timer_state_divide
         state _host_socket wifi app].
  destruct (125 <=? d + 1).
  - unfold final, effects.
    destruct (state_tick _) as [[u s2] es2].
    cbn [fst snd app modify]. rewrite ?app_nil_r. reflexivity.
  - cbn [fst snd app modify]. rewrite ?app_nil_r. reflexivity.
Qed.

Lemma audio_tick_writes_buzzer_only (a : Audio.vars) (pin : Z) :
  pin <> PIN_BUZZER ->
  levels_written pin (snd (Audio.audio_tick a)) = [].
Proof.
  intros H. unfold Audio.audio_tick.
  destruct (0 <? _); [ | reflexivity].
  cbn [snd levels_written].
  destruct (Z.eqb_spec PIN_BUZZER pin) as [E | _]; [congruence | reflexivity].
Qed.

Lemma audio_isr_step (s : fw) :
  audio (final (audio_isr s)) = fst (Audio.audio_tick (audio s)) /\
  _timer_state_divide (final (audio_isr s)) =
    (if 125 <=? _timer_state_divide s + 1 then 0
     else _timer_state_divide s + 1) /\
  length (levels_written PIN_LED_STATUS (effects (audio_isr s))) =
    (if 125 <=? _timer_state_divide s + 1 then 1%nat else 0%nat).
Proof.
  rewrite audio_isr_spec. cbv zeta.
  destruct (125 <=? _timer_state_divide s + 1).
  - rewrite state_tick_spec. unfold final, effects. cbn [fst snd].
    rewrite levels_written_app, audio_tick_writes_buzzer_only by discriminate.
    destruct s; repeat split.
  - unfold final, effects. cbn [fst snd].
    rewrite audio_tick_writes_buzzer_only by discriminate.
    destruct s; repeat split.
Qed.

(** X4: the timer interrupt ticks the audio every time it runs and the state
    machine every 125th time: after [n] interrupts from a divider d below 125,
    the status LED has been written (d + n) / 125 times, the divider is
    (d + n) mod 125, and the audio variables are those of [n] audio ticks. *)
Theorem state_tick_every_125 (n : nat) (s : fw) :
  0 <= _timer_state_divide s < 125 ->
  length (levels_written PIN_LED_STATUS (effects (times n audio_isr s))) =
    Z.to_nat ((_timer_state_divide s + Z.of_nat n) / 125) /\
  _timer_state_divide (final (times n audio_isr s)) =
    (_timer_state_divide s + Z.of_nat n) mod 125 /\
  audio (final (times n audio_isr s)) =
    Audio.run (repeat Audio.Tick n) (audio s).
Proof.
  revert s. induction n as [| n IH]; intros s Hd.
  - cbn [times repeat Audio.run]. unfold ret, final, effects; cbn [fst snd].
    rewrite Z.add_0_r, Z.div_small, Z.mod_small by lia.
    repeat split.
  - cbn [times repeat Audio.run Audio.step].
    destruct (bind_run audio_isr (fun _ => times n audio_isr) s)
      as (-> & -> & _).
    destruct (audio_isr_step s) as (Ha & Hv & Hw).
    rewrite levels_written_app, length_app, Hw.
    set (s1 := final (audio_isr s)) in *.
    assert (Hd1 : 0 <= _timer_state_divide s1 < 125)
      by (rewrite Hv; destruct (Z.leb_spec 125 (_timer_state_divide s + 1)); lia).
    destruct (IH s1 Hd1) as (IHw & IHv & IHa).
    rewrite IHw, IHv, IHa, Ha, Hv.
    destruct (Z.leb_spec 125 (_timer_state_divide s + 1)) as [Hge | Hlt].
    + assert (E : _timer_state_divide s = 124) by lia. rewrite E.
      replace (124 + Z.of_nat (S n)) with (Z.of_nat n + 1 * 125) by lia.
      rewrite Z.div_add, Z.mod_add by lia.
      cbn [Z.add]. split; [ | split; reflexivity].
      assert (0 <= Z.of_nat n / 125) by (apply Z.div_pos; lia). lia.
    + replace (_timer_state_divide s + 1 + Z.of_nat n)
        with (_timer_state_divide s + Z.of_nat (S n)) by lia.
      repeat split.
Qed.

Lemma state_tick_every_125_witness :
  length (levels_written PIN_LED_STATUS (effects (times 250 audio_isr boot))) =
    Z.to_nat ((_timer_state_divide boot + Z.of_nat 250) / 125) /\
  _timer_state_divide (final (times 250 audio_isr boot)) =
    (_timer_state_divide boot + Z.of_nat 250) mod 125 /\
  audio (final (times 250 audio_isr boot)) =
    Audio.run (repeat Audio.Tick 250) (audio boot).
Proof. apply (state_tick_every_125 250 boot). cbn. lia. Defined.

(** ** host.c: sending on a dead socket, and opening the session *)

(** One round of the heartbeat task, then the rest. *)
Lemma heartbeat_task_round (p r : Z) (rest : list Z) (s : fw) :
  heartbeat_task p (r :: rest) s =
    (tt,
     final (heartbeat_task p rest (final (host_send MSG_HEARTBEAT r s))),
     effects (host_send MSG_HEARTBEAT r s)
       ++ vTaskDelay (Z.quot 1000 p)
       :: effects (heartbeat_task p rest (final (host_send MSG_HEARTBEAT r s)))).
Proof.
  cbn [heartbeat_task]. unfold bind, emit, final, effects.
  destruct (host_send MSG_HEARTBEAT r s) as [[b s1] es1]. cbn [fst snd].
  destruct (heartbeat_task p rest s1) as [[[] s2] es2]. reflexivity.
Qed.

(** With no socket the heartbeat task only waits. *)
Lemma heartbeat_task_closed (p : Z) (rets : list Z) (s : fw) :
  _host_socket s = 0 ->
  heartbeat_task p rets s =
    (tt, s, repeat (vTaskDelay (Z.quot 1000 p)) (length rets)).
Proof.
  intros H. induction rets as [| r rets IH]; [reflexivity | ].
  rewrite heartbeat_task_round, (host_send_closed _ _ _ H).
  unfold final, effects; cbn [fst snd]. rewrite IH. reflexivity.
Qed.

(** X5: the socket variable is the session's dead flag.  With no socket the
    heartbeat task sends nothing; with one, its heartbeats go out until the
    first [send] that fails, that failure marks the socket invalid, and every
    later [host_send] is dropped without reaching [send].  Either way the
    task waits 1000 ms worth of RTOS ticks after every round. *)
Theorem sends_stop_at_first_failure (portTICK_PERIOD_MS : Z) (rets : list Z)
    (s : fw) :
  wire (effects (heartbeat_task portTICK_PERIOD_MS rets s)) =
    (if _host_socket s =? 0 then []
     else map (pair MSG_HEARTBEAT) (until_failure rets)) /\
  delays (effects (heartbeat_task portTICK_PERIOD_MS rets s)) =
    repeat (Z.quot 1000 portTICK_PERIOD_MS) (length rets) /\
  _host_socket (final (heartbeat_task portTICK_PERIOD_MS rets s)) =
    (if existsb (fun r => r <? 0) rets then 0 else _host_socket s) /\
  (forall (b r : Z),
     existsb (fun r => r <? 0) rets = true ->
     host_send b r (final (heartbeat_task portTICK_PERIOD_MS rets s)) =
       (false, final (heartbeat_task portTICK_PERIOD_MS rets s), [])).
Proof.
  set (p := portTICK_PERIOD_MS).
  assert (Hc : forall rets s, _host_socket s = 0 ->
             wire (effects (heartbeat_task p rets s)) = [] /\
             delays (effects (heartbeat_task p rets s)) =
               repeat (Z.quot 1000 p) (length rets) /\
             _host_socket (final (heartbeat_task p rets s)) = 0).
  { intros rs s0 H0. rewrite (heartbeat_task_closed _ _ _ H0).
    unfold final, effects; cbn [fst snd]. split; [ | split; [ | exact H0]].
    - induction rs as [| r rs IH]; [reflexivity | exact IH].
    - induction rs as [| r rs IH]; [reflexivity | ].
      cbn [length repeat delays]. rewrite IH. reflexivity. }
  assert (Ho : forall rets s, _host_socket s <> 0 ->
             wire (effects (heartbeat_task p rets s)) =
               map (pair MSG_HEARTBEAT) (until_failure rets) /\
             delays (effects (heartbeat_task p rets s)) =
               repeat (Z.quot 1000 p) (length rets) /\
             _host_socket (final (heartbeat_task p rets s)) =
               (if existsb (fun r => r <? 0) rets then 0 else _host_socket s)).
  { induction rets0 as [| r rs IH]; intros s0 H0.
    - repeat split.
    - rewrite heartbeat_task_round, (host_send_open _ _ _ H0).
      unfold final, effects; cbn [fst snd].
      cbn [app wire delays until_failure existsb length repeat map].
      destruct (r <? 0); cbn [orb].
      + destruct (Hc rs (set_host_socket 0 s0) ltac:(destruct s0; reflexivity))
          as (Hw & Hd & Hk).
        unfold final, effects in *. rewrite Hw, Hd, Hk. repeat split.
      + destruct (IH s0 H0) as (Hw & Hd & Hk).
        unfold final, effects in *. rewrite Hw, Hd, Hk. repeat split. }
  assert (Hs : _host_socket (final (heartbeat_task p rets s)) =
               (if existsb (fun r => r <? 0) rets then 0 else _host_socket s)).
  { destruct (Z.eq_dec (_host_socket s) 0) as [E | E].
    - destruct (Hc rets s E) as (_ & _ & ->). rewrite E.
      destruct (existsb _ rets); reflexivity.
    - apply (Ho rets s E). }
  split; [ | split; [ | split; [exact Hs | ]]].
  - destruct (Z.eqb_spec (_host_socket s) 0) as [E | E];
      [apply (Hc rets s E) | apply (Ho rets s E)].
  - destruct (Z.eq_dec (_host_socket s) 0) as [E | E];
      [apply (Hc rets s E) | apply (Ho rets s E)].
  - intros b r Hf. apply host_send_closed. rewrite Hs, Hf. reflexivity.
Qed.

(** Closing a case of [host_connect]. *)
Ltac hc_done :=
  unfold result, final, effects;
  cbn [fst snd In _host_socket set_host_socket negb];
  repeat split; intros;
  repeat match goal with
         | H : _ /\ _ |- _ => destruct H
         | H : _ \/ _ |- _ => destruct H
         | H : False |- _ => destruct H
         end;
  subst; try lia; try discriminate; try congruence;
  try (left; reflexivity); try reflexivity;
  try (match goal with s : fw |- _ => destruct s end; reflexivity).

(** X6: how [host_connect] ends.  It returns true exactly when [socket]
    gave a descriptor above 0, [connect] returned 0 and both messages were
    sent, and then the socket variable holds the descriptor; in every other
    case it returns false with the socket variable 0.  The descriptor is
    closed only when [connect] fails, not when a message cannot be sent.
    Nothing but the socket variable changes. *)
Theorem host_connect_outcomes (l : link) (s : fw) :
  (result (host_connect l s) = true <->
   0 < socket_ret l /\ connect_ret l = 0 /\
   0 <= version_ret l /\ 0 <= id_ret l) /\
  _host_socket (final (host_connect l s)) =
    (if result (host_connect l s) then socket_ret l else 0) /\
  (forall fd : Z,
     In (close fd) (effects (host_connect l s)) <->
     fd = socket_ret l /\ 0 <= socket_ret l /\ connect_ret l <> 0) /\
  final (host_connect l s) =
    set_host_socket (_host_socket (final (host_connect l s))) s.
Proof.
  rewrite host_connect_eq.
  destruct (Z.ltb_spec (socket_ret l) 0) as [Hs | Hs]; [hc_done | ].
  destruct (Z.eqb_spec (connect_ret l) 0) as [Hc | Hc]; cbn [negb];
    [ | hc_done].
  destruct (Z.eqb_spec (socket_ret l) 0) as [Hz | Hz]; [hc_done | ].
  destruct (Z.ltb_spec (version_ret l) 0) as [Hv | Hv]; [hc_done | ].
  destruct (Z.ltb_spec (id_ret l) 0) as [Hi | Hi]; hc_done.
Qed.


(** ** host.c: what the host can say *)

Lemma mode_bytes (b : Z) :
  0 <= b < 256 ->
  (Z.land b MSG_MODE_MASK =? MSG_MODE_PREFIX) = (0x20 <=? b) && (b <=? 0x23).
Proof.
  intros Hb.
  assert (H : forallb
                (fun n => Bool.eqb
                            (Z.land (Z.of_nat n) MSG_MODE_MASK =? MSG_MODE_PREFIX)
                            ((0x20 <=? Z.of_nat n) && (Z.of_nat n <=? 0x23)))
                (seq 0 256) = true) by (vm_compute; reflexivity).
  rewrite forallb_forall in H.
  specialize (H (Z.to_nat b)).
  rewrite Z2Nat.id in H by lia.
  apply eqb_prop, H, in_seq. lia.
Qed.

(** X7: the bytes the receive loop understands.  A byte is a mode message
    exactly when it is one of 0x20 .. 0x23; such a byte, taken as 0x20 + led
    + 2 * audio, is passed on as [state_enable (led, audio)] and nothing is
    sent back; any other byte changes no variable and is answered with the
    one byte 0x7F, and if that [send] fails the socket is marked invalid. *)
Theorem mode_message_decoding (t : turn) (s : fw) :
  meanwhile t = [] ->
  (is_mode_message (msg t) = true <-> 0x20 <= uint8 (msg t) <= 0x23) /\
  (forall led au : bool,
     uint8 (msg t) = 0x20 + Z.b2z led + 2 * Z.b2z au ->
     process_message t s = state_enable led au s) /\
  (is_mode_message (msg t) = false -> _host_socket s <> 0 ->
   process_message t s =
     (tt, if reply_ret t <? 0 then set_host_socket 0 s else s,
      [send MSG_ERR_BAD_MSG (reply_ret t)])).
Proof.
  intros Hb.
  assert (Hr : 0 <= uint8 (msg t) < 256) by (apply Z.mod_pos_bound; lia).
  assert (Hm : is_mode_message (msg t) =
               (0x20 <=? uint8 (msg t)) && (uint8 (msg t) <=? 0x23)).
  { unfold is_mode_message.
    replace (uint8 (uint8 (msg t))) with (uint8 (msg t))
      by (unfold uint8; rewrite Z.mod_mod; lia).
    apply mode_bytes, Hr. }
  split; [ | split].
  - rewrite Hm, andb_true_iff, !Z.leb_le. tauto.
  - intros led au E.
    unfold process_message. rewrite Hb. cbv zeta. rewrite E.
    destruct led, au; cbv -[state_enable];
      match goal with
      | |- context [state_enable ?l ?a s] =>
          destruct (state_enable l a s) as [[[] s2] es2]
      end; reflexivity.
  - intros Hn Ho. unfold is_mode_message in Hn.
    replace (uint8 (uint8 (msg t))) with (uint8 (msg t)) in Hn
      by (unfold uint8; rewrite Z.mod_mod; lia).
    unfold process_message. rewrite Hb. cbn [other_tasks].
    unfold bind at 1. unfold ret at 1. rewrite Hn.
    unfold bind. rewrite (host_send_open _ _ _ Ho).
    destruct (reply_ret t <? 0); reflexivity.
Qed.

Lemma mode_message_decoding_witness :
  (is_mode_message 0x23 = true <-> 0x20 <= uint8 0x23 <= 0x23) /\
  (forall led au : bool,
     uint8 0x23 = 0x20 + Z.b2z led + 2 * Z.b2z au ->
     process_message (mkturn [] 1 0x23 1) open_session =
       state_enable led au open_session) /\
  (is_mode_message 0x23 = false -> _host_socket open_session <> 0 ->
   process_message (mkturn [] 1 0x23 1) open_session =
     (tt, if 1 <? 0 then set_host_socket 0 open_session else open_session,
      [send MSG_ERR_BAD_MSG 1])).
Proof.
  apply (mode_message_decoding (mkturn [] 1 0x23 1) open_session).
  reflexivity.
Defined.

(** ** gpio.c: the module ID, back to the pins *)

(** X8: the module ID holds the seven ID pins and nothing else: bit 6 - i of
    [read_module_id] is the level of the i-th pin of [_id_pins], so two pin
    settings give the same ID exactly when they agree on those seven pins. *)
Theorem module_id_round_trip (level : Z -> bool) :
  id_bits (Gpio.read_module_id level) = map level Gpio._id_pins /\
  (forall level' : Z -> bool,
     Gpio.read_module_id level = Gpio.read_module_id level' <->
     map level Gpio._id_pins = map level' Gpio._id_pins).
Proof.
  assert (H : forall lv, id_bits (Gpio.read_module_id lv) = map lv Gpio._id_pins).
  { intros lv.
    unfold id_bits, Gpio.read_module_id, Gpio.gpio_get_level.
    cbn [Gpio._id_pins map fold_left].
    destruct (lv 25), (lv 26), (lv 27), (lv 9), (lv 10), (lv 13), (lv 5);
      vm_compute; reflexivity. }
  split; [apply H | ].
  intros level'. split; intros E.
  - rewrite <- (H level), <- (H level'), E. reflexivity.
  - destruct (read_module_id_big_endian level) as (-> & _).
    destruct (read_module_id_big_endian level') as (-> & _).
    rewrite E. reflexivity.
Qed.

(** ** wifi.c: later calls, and calls that get no answer *)

Section WifiLater.

Import Wifi.

(** A wait that returns, returns the bits of the event group as they then
    are, and one of the awaited bits is among them. *)
Lemma wait_returns_signal (bits : Z) (evs : list event) (s s' : vars)
    (signal : Z) (es : list effect) :
  xEventGroupWaitBits bits evs s = Some (signal, s', es) ->
  signal = _wifi_event_signal s' /\ Z.land signal bits <> 0.
Proof.
  revert s es. induction evs as [| e evs IH]; intros s es H;
    cbn [xEventGroupWaitBits] in H;
    destruct (Z.eqb_spec (Z.land (_wifi_event_signal s) bits) 0) as [E | E];
    cbn [negb] in H; try discriminate;
    try (injection H as <- <- <-; split; [reflexivity | exact E]).
  destruct (event_handler e s) as [s1 es1].
  destruct (xEventGroupWaitBits bits evs s1) as [[[sg s2] es2] | ] eqn:E2;
    [ | discriminate].
  injection H as <- <- <-. apply (IH _ _ E2).
Qed.

(** A call still waiting after some events returns as soon as an address is
    acquired: the signal is then CONNECTED alone. *)
Lemma wait_then_got_ip (pre rest : list event) (s : vars) :
  _wifi_event_signal s = 0 ->
  xEventGroupWaitBits (Z.lor WIFI_CONNECTED WIFI_FAILED) pre s = None ->
  exists s' es,
    xEventGroupWaitBits (Z.lor WIFI_CONNECTED WIFI_FAILED)
      (pre ++ IP_EVENT_STA_GOT_IP :: rest) s = Some (WIFI_CONNECTED, s', es).
Proof.
  revert s. induction pre as [| e pre IH]; intros [sg rt] Hs H;
    cbn [_wifi_event_signal] in Hs; subst sg.
  - cbn [app xEventGroupWaitBits _wifi_event_signal].
    change (negb (Z.land 0 (Z.lor WIFI_CONNECTED WIFI_FAILED) =? 0)) with false.
    cbv iota.
    cbn [event_handler _wifi_event_signal _wifi_connect_retries].
    rewrite wait_returns_at_once by (cbn; discriminate).
    eexists _, _. reflexivity.
  - cbn [app xEventGroupWaitBits _wifi_event_signal] in *.
    change (negb (Z.land 0 (Z.lor WIFI_CONNECTED WIFI_FAILED) =? 0))
      with false in *.
    cbv iota in *.
    destruct e;
      cbn [event_handler _wifi_event_signal _wifi_connect_retries] in *.
    + destruct (xEventGroupWaitBits _ pre (mk 0 0)) as [[[sg1 s1] es1] | ] eqn:E;
        [discriminate | ].
      destruct (IH (mk 0 0) eq_refl E) as (s' & es & ->).
      eexists _, _. reflexivity.
    + destruct (WIFI_MAX_RETRIES <=? rt).
      * rewrite wait_returns_at_once in H by (cbn; discriminate).
        discriminate.
      * destruct (xEventGroupWaitBits _ pre (mk 0 (rt + 1)))
          as [[[sg1 s1] es1] | ] eqn:E; [discriminate | ].
        destruct (IH (mk 0 (rt + 1)) eq_refl E) as (s' & es & ->).
        eexists _, _. reflexivity.
    + destruct (xEventGroupWaitBits _ pre (mk 0 rt)) as [[[sg1 s1] es1] | ] eqn:E;
        [discriminate | ].
      destruct (IH (mk 0 rt) eq_refl E) as (s' & es & ->).
      eexists _, _. reflexivity.
    + rewrite wait_returns_at_once in H by (cbn; discriminate).
      discriminate.
Qed.

(** X17: a call of [wifi_connect] entered with no signal raised, as
    [wifi_init] leaves the event group.  Each disconnection below the
    ceiling of 6 retries reconnects at once, and one at the ceiling raises
    FAILED.  When the station starts and seven disconnections follow in a
    row, six retries are made, FAILED is raised and the call returns failure.
    An address acquired after at most six disconnections, or at any point
    at which the call is still waiting, raises CONNECTED and the call
    returns success.  A call that returns has raised exactly one of the two
    signals and returns accordingly. *)
Theorem connect_from_clear_signal (s : vars) (rest : list event) :
  _wifi_event_signal s = 0 ->
  (forall t : vars,
     (_wifi_connect_retries t < WIFI_MAX_RETRIES ->
      event_handler WIFI_EVENT_STA_DISCONNECTED t =
        (mk (_wifi_event_signal t) (_wifi_connect_retries t + 1),
         [esp_wifi_connect])) /\
     (WIFI_MAX_RETRIES <= _wifi_connect_retries t ->
      event_handler WIFI_EVENT_STA_DISCONNECTED t =
        (mk (Z.lor (_wifi_event_signal t) WIFI_FAILED) (_wifi_connect_retries t),
         [xEventGroupSetBits WIFI_FAILED]))) /\
  wifi_connect
    (WIFI_EVENT_STA_START :: repeat WIFI_EVENT_STA_DISCONNECTED 7 ++ rest) s =
    Some (false, mk WIFI_FAILED 6,
          esp_wifi_start :: esp_wifi_connect :: repeat esp_wifi_connect 6
            ++ [xEventGroupSetBits WIFI_FAILED]) /\
  (forall k : nat, (k <= 6)%nat ->
     wifi_connect
       (WIFI_EVENT_STA_START :: repeat WIFI_EVENT_STA_DISCONNECTED k
          ++ IP_EVENT_STA_GOT_IP :: rest) s =
       Some (true, mk WIFI_CONNECTED (Z.of_nat k),
             esp_wifi_start :: esp_wifi_connect :: repeat esp_wifi_connect k
               ++ [xEventGroupSetBits WIFI_CONNECTED])) /\
  (forall pre : list event,
     wifi_connect pre s = None ->
     exists s' es,
       wifi_connect (pre ++ IP_EVENT_STA_GOT_IP :: rest) s =
         Some (true, s', es) /\
       connected_outcome true s' es) /\
  (forall (evs : list event) (r : bool) (s' : vars) (es : list effect),
     wifi_connect evs s = Some (r, s', es) ->
     (connected_outcome r s' es \/ failed_outcome r s' es) /\
     ~ (connected_outcome r s' es /\ failed_outcome r s' es)).
Proof.
  destruct s as [sg rt]. cbn [_wifi_event_signal]. intros ->.
  assert (Hout : forall (evs : list event) (r : bool) (s' : vars)
                   (es : list effect),
             wifi_connect evs (mk 0 rt) = Some (r, s', es) ->
             (connected_outcome r s' es \/ failed_outcome r s' es) /\
             ~ (connected_outcome r s' es /\ failed_outcome r s' es)).
  { intros evs r s' es H. unfold wifi_connect in H.
    destruct (xEventGroupWaitBits _ evs (mk 0 rt)) as [[[sg1 s1] es1] | ] eqn:E;
      [ | discriminate].
    injection H as <- <- <-.
    apply wait_one_signal in E; [ | reflexivity].
    destruct E as [H1 [(A & B & C) | (A & B & C)]]; subst sg1.
    + split.
      * left. unfold connected_outcome. rewrite A.
        split; [reflexivity | split; [reflexivity | split; [right; exact B | ]]].
        intros [D | D]; [discriminate | exact (C D)].
      * intros [_ (F & _)]. rewrite A in F. discriminate.
    + split.
      * right. unfold failed_outcome. rewrite A.
        split; [reflexivity | split; [reflexivity | split; [right; exact B | ]]].
        intros [D | D]; [discriminate | exact (C D)].
      * intros [(F & _) _]. rewrite A in F. discriminate. }
  split; [ | split; [ | split; [ | split; [ | exact Hout]]]].
  - intros t. unfold event_handler. split; intros H.
    + assert (E : (WIFI_MAX_RETRIES <=? _wifi_connect_retries t) = false)
        by (apply Z.leb_gt; exact H).
      rewrite E. reflexivity.
    + assert (E : (WIFI_MAX_RETRIES <=? _wifi_connect_retries t) = true)
        by (apply Z.leb_le; exact H).
      rewrite E. reflexivity.
  - apply (connect_more_events
             (WIFI_EVENT_STA_START :: repeat WIFI_EVENT_STA_DISCONNECTED 7)).
    reflexivity.
  - intros k Hk.
    replace (repeat WIFI_EVENT_STA_DISCONNECTED k ++ IP_EVENT_STA_GOT_IP :: rest)
      with ((repeat WIFI_EVENT_STA_DISCONNECTED k ++ [IP_EVENT_STA_GOT_IP]) ++ rest)
      by (rewrite <- app_assoc; reflexivity).
    apply (connect_more_events (WIFI_EVENT_STA_START :: _)).
    do 7 (destruct k as [| k]; [reflexivity | ]). lia.
  - intros pre H.
    assert (Hw : xEventGroupWaitBits (Z.lor WIFI_CONNECTED WIFI_FAILED) pre
                   (mk 0 rt) = None).
    { unfold wifi_connect in H.
      destruct (xEventGroupWaitBits _ pre (mk 0 rt)) as [[[sg1 s1] es1] | ];
        [discriminate | reflexivity]. }
    destruct (wait_then_got_ip pre rest (mk 0 rt) eq_refl Hw) as (s' & es & E).
    assert (Ec : wifi_connect (pre ++ IP_EVENT_STA_GOT_IP :: rest) (mk 0 rt) =
                 Some (true, s', esp_wifi_start :: es)).
    { unfold wifi_connect. rewrite E. reflexivity. }
    exists s', (esp_wifi_start :: es). split; [exact Ec | ].
    destruct (Hout _ _ _ _ Ec) as [[Hc | (F & _)] _];
      [exact Hc | discriminate].
Qed.

Lemma connect_from_clear_signal_witness :
  wifi_connect
    (WIFI_EVENT_STA_START :: repeat WIFI_EVENT_STA_DISCONNECTED 7 ++ [])
    (wifi boot) =
    Some (false, mk WIFI_FAILED 6,
          esp_wifi_start :: esp_wifi_connect :: repeat esp_wifi_connect 6
            ++ [xEventGroupSetBits WIFI_FAILED]) /\
  (exists s' es,
     wifi_connect
       ([WIFI_EVENT_other; WIFI_EVENT_STA_START; WIFI_EVENT_STA_DISCONNECTED;
         WIFI_EVENT_other; WIFI_EVENT_STA_START; WIFI_EVENT_STA_DISCONNECTED]
          ++ IP_EVENT_STA_GOT_IP :: []) (wifi boot) = Some (true, s', es) /\
     connected_outcome true s' es).
Proof.
  split.
  - apply (connect_from_clear_signal (wifi boot) []). reflexivity.
  - apply (connect_from_clear_signal (wifi boot) []); reflexivity.
Defined.

(** X9: the first outcome is every later outcome.  Nothing clears the event
    group, so once a call of [wifi_connect] has returned, every later call
    returns the same value at once: it starts the station, handles no event,
    makes no connection attempt and changes no variable. *)
Theorem first_outcome_is_repeated (evs : list event) (s s1 : vars)
    (r : bool) (es : list effect) :
  wifi_connect evs s = Some (r, s1, es) ->
  forall evs2 : list event,
    wifi_connect evs2 s1 = Some (r, s1, [esp_wifi_start]).
Proof.
  unfold wifi_connect. intros H evs2.
  destruct (xEventGroupWaitBits _ evs s) as [[[sg s2] es2] | ] eqn:E;
    [ | discriminate].
  injection H as <- <- <-.
  destruct (wait_returns_signal _ _ _ _ _ _ E) as [-> Hne].
  rewrite (wait_returns_at_once _ evs2 s2 Hne). reflexivity.
Qed.

Lemma first_outcome_is_repeated_witness :
  wifi_connect [WIFI_EVENT_STA_START; IP_EVENT_STA_GOT_IP] (mk WIFI_FAILED 6) =
    Some (false, mk WIFI_FAILED 6, [esp_wifi_start]).
Proof.
  generalize [WIFI_EVENT_STA_START; IP_EVENT_STA_GOT_IP].
  apply (first_outcome_is_repeated
           (WIFI_EVENT_STA_START :: repeat WIFI_EVENT_STA_DISCONNECTED 7)
           (wifi boot) (mk WIFI_FAILED 6) false
           (esp_wifi_start :: esp_wifi_connect :: repeat esp_wifi_connect 6
              ++ [xEventGroupSetBits WIFI_FAILED])).
  reflexivity.
Defined.

(** X10: there is no timeout.  From an event group with no bit set, events
    that bring no address and too few disconnections to pass the ceiling
    leave the call blocked, however many other events there are. *)
Theorem connect_blocks_without_outcome (evs : list event) (s : vars) :
  _wifi_event_signal s = 0 ->
  0 <= _wifi_connect_retries s ->
  _wifi_connect_retries s + disconnections evs <= WIFI_MAX_RETRIES ->
  existsb is_got_ip evs = false ->
  wifi_connect evs s = None.
Proof.
  assert (Hd : forall l, 0 <= disconnections l).
  { induction l as [| e l IHl]; [cbn; lia | destruct e; cbn [disconnections]; lia]. }
  unfold wifi_connect.
  enough (H : forall evs s,
             _wifi_event_signal s = 0 ->
             0 <= _wifi_connect_retries s ->
             _wifi_connect_retries s + disconnections evs <= WIFI_MAX_RETRIES ->
             existsb is_got_ip evs = false ->
             xEventGroupWaitBits (Z.lor WIFI_CONNECTED WIFI_FAILED) evs s = None).
  { intros Hs Hr Hc Hg. rewrite (H evs s Hs Hr Hc Hg). reflexivity. }
  clear evs s. induction evs as [| e evs IH]; intros [sg rt] Hs Hr Hc Hg;
    cbn [_wifi_event_signal _wifi_connect_retries] in *; subst sg;
    cbn [xEventGroupWaitBits _wifi_event_signal];
    change (negb (Z.land 0 (Z.lor WIFI_CONNECTED WIFI_FAILED) =? 0)) with false;
    cbv iota; [reflexivity | ].
  pose proof (Hd evs) as Hd'.
  destruct e; cbn [event_handler _wifi_event_signal _wifi_connect_retries
                     disconnections existsb is_got_ip orb] in *.
  - rewrite (IH (mk 0 0)); [reflexivity | reflexivity | cbn; lia | | exact Hg].
    cbn [_wifi_connect_retries]. unfold WIFI_MAX_RETRIES in *. lia.
  - destruct (Z.leb_spec WIFI_MAX_RETRIES rt) as [Hge | Hlt];
      [unfold WIFI_MAX_RETRIES in *; lia | ].
    rewrite (IH (mk 0 (rt + 1))); [reflexivity | reflexivity | cbn; lia | | exact Hg].
    cbn [_wifi_connect_retries]. lia.
  - rewrite (IH (mk 0 rt)); [reflexivity | reflexivity | exact Hr | exact Hc | exact Hg].
  - discriminate.
Qed.

Lemma connect_blocks_without_outcome_witness :
  wifi_connect
    (WIFI_EVENT_STA_START :: WIFI_EVENT_other
       :: repeat WIFI_EVENT_STA_DISCONNECTED 6)
    (wifi boot) = None.
Proof.
  apply (connect_blocks_without_outcome
           (WIFI_EVENT_STA_START :: WIFI_EVENT_other
              :: repeat WIFI_EVENT_STA_DISCONNECTED 6)
           (wifi boot));
    [reflexivity | vm_compute; discriminate | vm_compute; discriminate
    | reflexivity].
Defined.

End WifiLater.

(** ** state.c: the debug LED and the wire *)

(** One sample, as seen from outside. *)
Lemma check_button_wire (level : bool) (r : Z) (s : fw) :
  levels_written PIN_LED_PCB (effects (check_button level r s)) =
    [if level then 0 else 1] /\
  sent_bytes (effects (check_button level r s)) =
    (if negb level && negb (State._button_pressed (state s))
        && State._connected (state s) && negb (_host_socket s =? 0)
     then [MSG_PRESS] else []) /\
  (_host_socket s = 0 -> _host_socket (final (check_button level r s)) = 0).
Proof.
  destruct s as [a [c l p f ph] k w d].
  unfold check_button, host_send_press, host_send, set_button_pressed.
  unfold_m. cbn [state State._button_pressed State._connected _host_socket].
  destruct level, p, c; cbn;
    try (repeat split; intros; subst; reflexivity);
    destruct (k =? 0) eqn:E; cbn; try (repeat split; intros; subst; reflexivity);
    destruct (r <? 0); cbn; repeat split; intros; subst; try reflexivity;
    discriminate.
Qed.

(** X11: the debug LED follows the button whatever else happens: every
    sample writes the PCB LED high when the pin is low and low when it is
    high.  The only byte the button task ever sends is the press message, at
    most one per reported press, and none at all while there is no socket. *)
Theorem button_led_and_wire (samples : list (bool * Z)) (s : fw) :
  levels_written PIN_LED_PCB (effects (button_poll_task samples s)) =
    map (fun x : bool * Z => if fst x then 0 else 1) samples /\
  Forall (fun b => b = MSG_PRESS)
    (sent_bytes (effects (button_poll_task samples s))) /\
  (length (sent_bytes (effects (button_poll_task samples s)))
   <= presses (effects (button_poll_task samples s)))%nat /\
  (_host_socket s = 0 ->
   sent_bytes (effects (button_poll_task samples s)) = []).
Proof.
  revert s. induction samples as [| [level r] rest IH]; intros s.
  - cbn. repeat split; [constructor | lia].
  - rewrite button_poll_task_cons.
    change (effects (?a, ?b, ?c)) with c.
    destruct (check_button_wire level r s) as (Hl & Hb & Hk).
    destruct (check_button_spec level r s) as (Hp & _).
    destruct (IH (final (check_button level r s))) as (IHl & IHf & IHn & IHk).
    rewrite levels_written_app, sent_bytes_app, presses_app, Hl, IHl, Hb, Hp.
    split; [reflexivity | ].
    split; [ | split].
    + apply Forall_app. split; [ | exact IHf].
      destruct (_ && _); repeat constructor.
    + rewrite length_app.
      destruct (negb level && negb (State._button_pressed (state s))
                && State._connected (state s));
        destruct (negb (_host_socket s =? 0)); cbn [andb length]; lia.
    + intros E. rewrite (IHk (Hk E)), E, andb_false_r. reflexivity.
Qed.

(** ** state.c and audio.c: entering a state, and starting playback *)

(** X12: entering the connecting state or the connected state switches the
    outputs off: the button LED is written low, [_led_on] is cleared, and the
    stop request left behind makes the next audio tick end at counter 0 with
    the transducer low, whatever was playing and whatever was requested. *)
Theorem entering_a_state_silences (s : fw) :
  levels_written PIN_LED_BUTTON (effects (state_connect s)) = [0] /\
  levels_written PIN_LED_BUTTON (effects (state_connected s)) = [0] /\
  State._led_on (state (final (state_connect s))) = false /\
  State._led_on (state (final (state_connected s))) = false /\
  Audio.audio_tick (audio (final (state_connect s))) =
    (Audio.mk false false 0, [gpio_set_level PIN_BUZZER 0]) /\
  Audio.audio_tick (audio (final (state_connected s))) =
    (Audio.mk false false 0, [gpio_set_level PIN_BUZZER 0]) /\
  State._button_pressed (state (final (state_connect s))) =
    State._button_pressed (state s) /\
  State._button_pressed (state (final (state_connected s))) =
    State._button_pressed (state s).
Proof.
  rewrite state_connect_spec, state_connected_spec.
  unfold final, effects; cbn [fst snd state audio State._led_on State._button_pressed].
  repeat split; apply tick_stop_pending; reflexivity.
Qed.

(** X13: a mode command with audio on starts a playback at the next
    interrupt when the audio is idle: the counter goes to 999 and the
    transducer is written high.  If a stop is still pending, as it is from
    [state_connected] until the next interrupt, the start is consumed with
    it and nothing plays. *)
Theorem audio_mode_starts_playback (led : bool) (s : fw) :
  Audio._audio_count (audio s) = 0 ->
  (Audio._audio_stop (audio s) = false ->
   audio (final (audio_isr (final (state_enable led true s)))) =
     Audio.mk false false 999 /\
   levels_written PIN_BUZZER
     (effects (audio_isr (final (state_enable led true s)))) = [1]) /\
  (Audio._audio_stop (audio s) = true ->
   audio (final (audio_isr (final (state_enable led true s)))) =
     Audio.mk false false 0 /\
   levels_written PIN_BUZZER
     (effects (audio_isr (final (state_enable led true s)))) = [0]).
Proof.
  intros Hc.
  assert (Hw : forall s1 : fw,
             levels_written PIN_BUZZER (effects (audio_isr s1)) =
               levels_written PIN_BUZZER (snd (Audio.audio_tick (audio s1)))).
  { intros s1. rewrite audio_isr_spec. cbv zeta.
    destruct (125 <=? _timer_state_divide s1 + 1); unfold effects; cbn [snd];
      [ | reflexivity].
    rewrite levels_written_app, state_tick_spec. cbn [snd levels_written].
    change (PIN_LED_STATUS =? PIN_BUZZER) with false. cbv iota.
    apply app_nil_r. }
  split; intros Hs.
  - destruct (audio_isr_step (final (state_enable led true s))) as (-> & _).
    rewrite Hw, state_enable_spec. unfold final; cbn [fst snd audio].
    rewrite (tick_start_idle (Audio.audio_start (audio s)) Hs eq_refl Hc).
    split; reflexivity.
  - destruct (audio_isr_step (final (state_enable led true s))) as (-> & _).
    rewrite Hw, state_enable_spec. unfold final; cbn [fst snd audio].
    rewrite (tick_stop_pending (Audio.audio_start (audio s)) Hs).
    split; reflexivity.
Qed.

Lemma audio_mode_starts_playback_witness :
  (Audio._audio_stop (audio boot) = false ->
   audio (final (audio_isr (final (state_enable true true boot)))) =
     Audio.mk false false 999 /\
   levels_written PIN_BUZZER
     (effects (audio_isr (final (state_enable true true boot)))) = [1]) /\
  (Audio._audio_stop (audio boot) = true ->
   audio (final (audio_isr (final (state_enable true true boot)))) =
     Audio.mk false false 0 /\
   levels_written PIN_BUZZER
     (effects (audio_isr (final (state_enable true true boot)))) = [0]).
Proof. apply (audio_mode_starts_playback true boot). reflexivity. Defined.

(** ** main.c: the main loop as a whole *)

(** X14: whatever the attempts bring, the main loop never delays by anything
    but 2000 ms worth of RTOS ticks, and at most once per turn. *)
Theorem main_loop_delays (portTICK_PERIOD_MS : Z) (attempts : list attempt)
    (s s' : fw) (es : list effect) :
  main_loop portTICK_PERIOD_MS attempts s = Some (s', es) ->
  Forall (fun d => d = Z.quot 2000 portTICK_PERIOD_MS) (delays es) /\
  (length (delays es) <= length attempts)%nat.
Proof.
  revert s es. induction attempts as [| a rest IH]; intros s es H.
  - cbn in H. injection H as <- <-. split; [constructor | cbn; lia].
  - cbn [main_loop] in H. unfold main_loop_body in H.
    destruct (run a s) as [[[r s1] es1] | ] eqn:Er; [ | discriminate].
    destruct (run_outcome _ _ _ _ _ Er) as (Hd & _).
    destruct r; cbn [negb] in H.
    + destruct (main_loop _ rest s1) as [[s2 es2] | ] eqn:Em; [ | discriminate].
      injection H as <- <-. destruct (IH _ _ Em) as [IHf IHn].
      rewrite delays_app, Hd. cbn [app length]. split; [exact IHf | lia].
    + destruct (main_loop _ rest s1) as [[s2 es2] | ] eqn:Em; [ | discriminate].
      injection H as <- <-. destruct (IH _ _ Em) as [IHf IHn].
      rewrite !delays_app, Hd. cbn [app delays length].
      split; [constructor; [reflexivity | exact IHf] | lia].
Qed.

Lemma main_loop_delays_witness :
  Forall (fun d => d = Z.quot 2000 10) (delays (snd after_no_wifi)) /\
  (length (delays (snd after_no_wifi)) <= length [attempt_no_wifi])%nat.
Proof.
  apply (main_loop_delays 10 [attempt_no_wifi] boot (fst after_no_wifi)
           (snd after_no_wifi)).
  vm_compute. reflexivity.
Defined.

(** A call of [run] that returns leaves no socket behind, provided there was
    none before it; after a session, or a failed opening, there is none in
    any case. *)
Lemma run_leaves_no_socket (a : attempt) (s s' : fw) (r : bool) (es : list effect) :
  run a s = Some (r, s', es) ->
  _host_socket s = 0 -> _host_socket s' = 0.
Proof.
  intros H Hs.
  destruct (run_outcome _ _ _ _ _ H) as (_ & _ & Hk & _).
  destruct r; [apply Hk; reflexivity | ].
  unfold run in H. rewrite state_connect_spec in H. cbv iota in H.
  destruct (Wifi.wifi_connect _ _) as [[[up w] es2] | ]; [ | discriminate].
  destruct up; cbn [negb] in H.
  - rewrite host_connect_eq in H.
    destruct (socket_ret (host_link a) <? 0);
      [cbv beta iota zeta delta [negb] in H;
       injection H; intros; subst; reflexivity | ].
    destruct (negb (connect_ret (host_link a) =? 0));
      [cbv beta iota zeta delta [negb] in H;
       injection H; intros; subst; reflexivity | ].
    destruct (socket_ret (host_link a) =? 0);
      [cbv beta iota zeta delta [negb] in H;
       injection H; intros; subst; reflexivity | ].
    destruct (version_ret (host_link a) <? 0);
      [cbv beta iota zeta delta [negb] in H;
       injection H; intros; subst; reflexivity | ].
    destruct (id_ret (host_link a) <? 0);
      cbv beta iota zeta delta [negb] in H.
    + injection H; intros; subst; reflexivity.
    + rewrite state_connected_spec in H. cbv iota in H.
      destruct (host_process_messages _ _) as [[s5 es5] | ]; discriminate.
  - injection H; intros; subst. exact Hs.
Qed.

(** X15: between the turns of the main loop there is no session: started
    without a socket, the loop has none after any number of completed turns,
    whether or not sessions were opened on the way, so a heartbeat or a press
    between two sessions is dropped and nothing reaches [send]. *)
Theorem no_socket_between_turns (portTICK_PERIOD_MS : Z)
    (attempts : list attempt) (s s' : fw) (es : list effect) :
  _host_socket s = 0 ->
  main_loop portTICK_PERIOD_MS attempts s = Some (s', es) ->
  _host_socket s' = 0 /\
  (forall rets : list Z,
     wire (effects (heartbeat_task portTICK_PERIOD_MS rets s')) = [] /\
     final (heartbeat_task portTICK_PERIOD_MS rets s') = s') /\
  (forall r : Z,
     wire (effects (host_send_press r s')) = [] /\
     _host_socket (final (host_send_press r s')) = 0).
Proof.
  intros Hs H.
  assert (Hk : _host_socket s' = 0).
  { revert s es Hs H. induction attempts as [| a rest IH]; intros s es Hs H.
    - cbn in H. injection H as <- <-. exact Hs.
    - cbn [main_loop] in H. unfold main_loop_body in H.
      destruct (run a s) as [[[r s1] es1] | ] eqn:Er; [ | discriminate].
      pose proof (run_leaves_no_socket _ _ _ _ _ Er Hs) as Hs1.
      destruct r; cbn [negb] in H;
        (destruct (main_loop _ rest s1) as [[s2 es2] | ] eqn:Em;
         [ | discriminate]);
        injection H as <- <-; apply (IH _ _ Hs1 Em). }
  split; [exact Hk | split].
  - intros rets. rewrite (heartbeat_task_closed _ _ _ Hk).
    unfold final, effects; cbn [fst snd]. split; [ | reflexivity].
    induction rets as [| r rets IH]; [reflexivity | exact IH].
  - intros r. unfold host_send_press, bind, emit.
    rewrite (host_send_closed _ _ _ Hk). split; [reflexivity | exact Hk].
Qed.

Lemma no_socket_between_turns_witness :
  wire (snd after_two_sessions) =
    [(MSG_VERSION, 1); (0x80, 1); (MSG_ERR_BAD_MSG, -1);
     (MSG_VERSION, 1); (0x80, 1); (MSG_ERR_BAD_MSG, -1)] /\
  _host_socket (fst after_two_sessions) = 0 /\
  (forall rets : list Z,
     wire (effects (heartbeat_task 10 rets (fst after_two_sessions))) = [] /\
     final (heartbeat_task 10 rets (fst after_two_sessions)) =
       fst after_two_sessions) /\
  (forall r : Z,
     wire (effects (host_send_press r (fst after_two_sessions))) = [] /\
     _host_socket (final (host_send_press r (fst after_two_sessions))) = 0).
Proof.
  split; [vm_compute; reflexivity | ].
  apply (no_socket_between_turns 10
           [attempt_session_lost; attempt_session_lost] boot
           (fst after_two_sessions) (snd after_two_sessions)).
  - reflexivity.
  - vm_compute. reflexivity.
Defined.

(** ** wifi.c: the retry count *)

(** X16: the retry count never leaves 0 .. WIFI_MAX_RETRIES: whatever events
    the handler is given during a call, a count that was within the ceiling
    still is when the call returns, and at most one connection attempt is
    made per event handled. *)
Theorem retries_stay_within_ceiling (evs : list Wifi.event) (s s' : Wifi.vars)
    (r : bool) (es : list effect) :
  0 <= Wifi._wifi_connect_retries s <= Wifi.WIFI_MAX_RETRIES ->
  Wifi.wifi_connect evs s = Some (r, s', es) ->
  0 <= Wifi._wifi_connect_retries s' <= Wifi.WIFI_MAX_RETRIES /\
  (length es <= 1 + length evs)%nat.
Proof.
  unfold Wifi.wifi_connect. intros Hr H.
  destruct (Wifi.xEventGroupWaitBits _ evs s) as [[[sg s2] es2] | ] eqn:E;
    [ | discriminate].
  injection H as _ <- <-. cbn [length].
  enough (Hw : 0 <= Wifi._wifi_connect_retries s2 <= Wifi.WIFI_MAX_RETRIES /\
               (length es2 <= length evs)%nat) by (split; [apply Hw | lia]).
  revert s sg s2 es2 Hr E. generalize (Z.lor Wifi.WIFI_CONNECTED Wifi.WIFI_FAILED).
  intros bits. induction evs as [| e evs IH]; intros s sg s2 es2 Hr E;
    cbn [Wifi.xEventGroupWaitBits] in E;
    destruct (negb (Z.land (Wifi._wifi_event_signal s) bits =? 0));
    try discriminate;
    try (injection E as _ <- <-; split; [exact Hr | cbn; lia]).
  destruct (Wifi.event_handler e s) as [s1 es1] eqn:Eh.
  destruct (Wifi.xEventGroupWaitBits bits evs s1) as [[[sg1 s3] es3] | ] eqn:E1;
    [ | discriminate].
  injection E as _ <- <-.
  assert (H1 : 0 <= Wifi._wifi_connect_retries s1 <= Wifi.WIFI_MAX_RETRIES /\
               (length es1 <= 1)%nat).
  { unfold Wifi.WIFI_MAX_RETRIES in *.
    destruct e; cbn [Wifi.event_handler] in Eh.
    - injection Eh as <- <-. cbn. lia.
    - unfold Wifi.WIFI_MAX_RETRIES in Eh. revert Eh.
      destruct (Z.leb_spec 6 (Wifi._wifi_connect_retries s));
        intros Eh; injection Eh as <- <-; cbn; lia.
    - injection Eh as <- <-. cbn. lia.
    - injection Eh as <- <-. cbn. lia. }
  destruct (IH _ _ _ _ (proj1 H1) E1) as [IHr IHn].
  split; [exact IHr | rewrite length_app; cbn [length]; lia].
Qed.

Lemma retries_stay_within_ceiling_witness :
  0 <= Wifi._wifi_connect_retries (Wifi.mk Wifi.WIFI_FAILED 6)
    <= Wifi.WIFI_MAX_RETRIES /\
  (length (esp_wifi_start :: esp_wifi_connect :: repeat esp_wifi_connect 6
             ++ [xEventGroupSetBits Wifi.WIFI_FAILED])
   <= 1 + length (Wifi.WIFI_EVENT_STA_START
                    :: repeat Wifi.WIFI_EVENT_STA_DISCONNECTED 7))%nat.
Proof.
  apply (retries_stay_within_ceiling
           (Wifi.WIFI_EVENT_STA_START
              :: repeat Wifi.WIFI_EVENT_STA_DISCONNECTED 7)
           (wifi boot) (Wifi.mk Wifi.WIFI_FAILED 6) false).
  - vm_compute. split; discriminate.
  - reflexivity.
Defined.
